(** * amp-youtube 1.0: the Preact component

    A shallow embedding of [extensions/amp-youtube/1.0/component.js]:
    the URL builder ([getEmbedUrl] and the parameter rules of
    [YoutubeWithRef]), the message bridge ([onMessage]) and the load
    handler ([onIframeLoad]), with the properties the specification
    states about them. *)

From Stdlib Require Import Bool Ascii String List ZArith DecimalString DecimalPos DecimalZ.
Import ListNotations.
Open Scope string_scope.

(** ** JavaScript values

    The values that reach the component through a message: JSON values
    and [undefined].  Numbers are the integer-valued doubles that print
    in plain decimal, and NaN (the default duration); arrays and
    functions do not occur in the model.  (The language compares and
    prints an array through its elements, so an array may equal a text
    or make the comparison throw; what is stated about when a handler
    throws is stated for primitive values.)  Strings are byte strings
    (UTF-8). *)

Inductive number : Type :=
| NaN
| Int (z : Z).

#[local] Unset Elimination Schemes.
Inductive value : Type :=
| JUndefined
| JNull
| JBool (b : bool)
| JNum (n : number)
| JStr (s : string)
| JObj (fields : list (string * value)).
#[local] Set Elimination Schemes.

(** ToBoolean: what [if (v)] and [!v] test. *)
Definition ToBoolean (v : value) : bool :=
  match v with
  | JUndefined | JNull => false
  | JBool b => b
  | JNum NaN => false
  | JNum (Int z) => negb (z =? 0)%Z
  | JStr s => negb (s =? "")
  | JObj _ => true
  end.

(** [v != null], which is also [v != undefined]. *)
Definition notNullish (v : value) : bool :=
  match v with
  | JUndefined | JNull => false
  | _ => true
  end.

(** Number::toString for the numbers of the model. *)
Definition numberToString (n : number) : string :=
  match n with
  | NaN => "NaN"
  | Int z => NilZero.string_of_int (Z.to_int z)
  end.

(** ** Objects as property lists

    A plain object is the list of its own properties in insertion
    order.  The operations below are the ones the component uses:
    [k in o], [o[k]], [o[k] = v] and [delete o[k]]. *)

Section Properties.
Context {A : Type}.

Definition has (k : string) (o : list (string * A)) : bool :=
  existsb (fun p => fst p =? k) o.

Fixpoint lookup (k : string) (o : list (string * A)) : option A :=
  match o with
  | [] => None
  | (k', v) :: o' => if k' =? k then Some v else lookup k o'
  end.

(** An assignment keeps the place of a property that exists and adds
    a new one at the end. *)
Definition set (k : string) (v : A) (o : list (string * A)) : list (string * A) :=
  if has k o
  then map (fun p => if fst p =? k then (k, v) else p) o
  else o ++ [(k, v)].

Definition delete (k : string) (o : list (string * A)) : list (string * A) :=
  filter (fun p => negb (fst p =? k)) o.
End Properties.

Definition object : Type := list (string * value).

(** [v[k]] for the property names the component reads ([event], [info],
    [playerState], [muted], [currentTime], [duration]): no built-in
    prototype defines any of them, so the read finds an own property
    of an object or [undefined]. *)
Definition Get (v : value) (k : string) : value :=
  match v with
  | JObj fields =>
      match lookup k fields with
      | Some x => x
      | None => JUndefined
      end
  | _ => JUndefined
  end.

(** ** The host

    Built-ins of the language that the component calls and whose
    definition lies outside the program. *)
Class Host : Type := {
  (** [JSON.parse]; [None] when it throws a SyntaxError. *)
  JSON_parse : string -> option value;
  (** [JSON.stringify] of an object. *)
  JSON_stringify : value -> string;
  (** Whether StringToNumber of a string is zero, as [s == 0] asks. *)
  StringToNumber_isZero : string -> bool
}.

(** [encodeURIComponent] on byte strings: the unreserved marks pass,
    every other byte becomes [%XX]. *)
Definition isUnreserved (c : ascii) : bool :=
  let n := nat_of_ascii c in
  ((65 <=? n) && (n <=? 90))%nat || ((97 <=? n) && (n <=? 122))%nat
  || ((48 <=? n) && (n <=? 57))%nat
  || existsb (Ascii.eqb c)
       ["-"; "_"; "."; "!"; "~"; "*"; "'"; "("; ")"]%char.

Definition hexDigit (n : nat) : ascii :=
  if (n <? 10)%nat then ascii_of_nat (48 + n) else ascii_of_nat (55 + n).

Definition encodeByte (c : ascii) : string :=
  if isUnreserved c then String c ""
  else String "%" (String (hexDigit (nat_of_ascii c / 16))
                     (String (hexDigit (nat_of_ascii c mod 16)) "")).

Fixpoint encodeURIComponent (s : string) : string :=
  match s with
  | "" => ""
  | String c s' => encodeByte c ++ encodeURIComponent s'
  end.

(** ** Effects of the handlers

    A handler acts on the iframe it is called for: it dispatches custom
    events on the element and posts messages to its content window.
    The trace lists these actions in the order they happen. *)

Definition iframe : Type := nat.

(** An event as the handlers see it: its [data] (undefined unless it is
    a message) and the iframe it is delivered to. *)
Record Event : Type := {
  data : value;
  currentTarget : iframe
}.

Record CustomEventOptionsDef : Type := {
  bubbles : bool;
  cancelable : bool
}.

(** What reaches the dispatcher as the event name: a string of a table,
    [undefined] when a table has no such key, or a member that the
    table inherits from [Object.prototype] when the key names one. *)
Inductive eventName : Type :=
| Name (s : string)
| NameUndefined
| NameInherited (member : string).

(** Modelled from the spec: dispatchCustomEvent (src/dom.js) is not
    among the sources; the spec calls it the lifecycle-event dispatch
    primitive.  A call is recorded with its four arguments; so is a
    [postMessage] to the content window of an iframe, which the iframe
    has once it is attached. *)
Inductive effect : Type :=
| dispatchCustomEvent (node : iframe) (name : eventName) (detail : value)
    (options : CustomEventOptionsDef)
| postMessage (contentWindowOf : iframe) (message : string) (targetOrigin : string).

Inductive exn : Type :=
| Error (message : string)
| TypeError (message : string).

Inductive completion (A : Type) : Type :=
| Normal (a : A)
| Abrupt (e : exn).
Arguments Normal {A} a.
Arguments Abrupt {A} e.

(** The state a handler runs in: the object held by [playerStateRef]
    and the trace of actions so far. *)
Record world : Type := {
  playerStateRef_current : object;
  trace : list effect
}.

Definition M (A : Type) : Type := world -> completion A * world.

Definition ret {A : Type} (a : A) : M A := fun w => (Normal a, w).

Definition bind {A B : Type} (m : M A) (k : A -> M B) : M B :=
  fun w =>
    match m w with
    | (Normal a, w') => k a w'
    | (Abrupt e, w') => (Abrupt e, w')
    end.

Definition lift {A : Type} (c : completion A) : M A := fun w => (c, w).

Definition emit (e : effect) : M unit :=
  fun w => (Normal tt, {| playerStateRef_current := playerStateRef_current w;
                          trace := trace w ++ [e] |}).

Definition updateInfo (f : object -> object) : M unit :=
  fun w => (Normal tt, {| playerStateRef_current := f (playerStateRef_current w);
                          trace := trace w |}).

Definition when (b : bool) (m : M unit) : M unit := if b then m else ret tt.

Declare Scope js_scope.
Delimit Scope js_scope with js.
Notation "x <- m ;; k" := (bind m (fun x => k))
  (at level 61, m at next level, right associativity) : js_scope.
Notation "m ;; k" := (bind m (fun _ => k))
  (at level 61, right associativity) : js_scope.
Open Scope js_scope.

(** [a && b] on conditions that may throw: [b] is evaluated only when
    [a] holds. *)
Definition andThen (a b : M bool) : M bool :=
  x <- a ;; if x then b else ret false.

(** ** Coercions of the language *)

(** ToPrimitive of an object of the model.  [Object.prototype.valueOf]
    returns the object, so the result is that of [toString]: a property
    of that name on the object itself is no function, and the
    conversion throws; otherwise [Object.prototype.toString] answers. *)
Definition ToPrimitive (fields : list (string * value)) : completion string :=
  if has "toString" fields
  then Abrupt (TypeError "Cannot convert object to primitive value")
  else Normal "[object Object]".

(** [v == s] for a string [s] that is no numeric literal (StringToNumber
    of it is NaN, so no number and no boolean equals it). *)
Definition looseEqualsText (v : value) (s : string) : completion bool :=
  match v with
  | JStr t => Normal (t =? s)
  | JObj fields =>
      match ToPrimitive fields with
      | Normal t => Normal (t =? s)
      | Abrupt e => Abrupt e
      end
  | _ => Normal false
  end.

(** [v == 0]. *)
Definition looseEqualsZero `{Host} (v : value) : completion bool :=
  match v with
  | JUndefined | JNull => Normal false
  | JBool b => Normal (negb b)
  | JNum NaN => Normal false
  | JNum (Int z) => Normal (z =? 0)%Z
  | JStr s => Normal (StringToNumber_isZero s)
  | JObj fields =>
      match ToPrimitive fields with
      | Normal _ => Normal false
      | Abrupt e => Abrupt e
      end
  end.

(** [v.toString()]. *)
Definition toString (v : value) : completion string :=
  match v with
  | JUndefined | JNull => Abrupt (TypeError "Cannot read properties of undefined")
  | JBool b => Normal (if b then "true" else "false")
  | JNum n => Normal (numberToString n)
  | JStr s => Normal s
  | JObj fields =>
      if has "toString" fields
      then Abrupt (TypeError "toString is not a function")
      else Normal "[object Object]"
  end.

(** ToString of a primitive, as [JSON.parse] applies it to its argument. *)
Definition ToString (v : value) : string :=
  match v with
  | JUndefined => "undefined"
  | JNull => "null"
  | JBool b => if b then "true" else "false"
  | JNum n => numberToString n
  | JStr s => s
  | JObj _ => "[object Object]"
  end.

(** The names every plain object inherits from [Object.prototype]. *)
Definition ObjectPrototype : list string :=
  ["constructor"; "hasOwnProperty"; "isPrototypeOf"; "propertyIsEnumerable";
   "toLocaleString"; "toString"; "valueOf"; "__proto__";
   "__defineGetter__"; "__defineSetter__"; "__lookupGetter__"; "__lookupSetter__"].

(** [table[key]] on a table literal of strings. *)
Definition readTable (table : list (string * string)) (key : string) : eventName :=
  match lookup key table with
  | Some s => Name s
  | None => if existsb (String.eqb key) ObjectPrototype
            then NameInherited key
            else NameUndefined
  end.

(** ** Collaborators that are not among the sources *)

(** Modelled from the spec: dict (src/core/types/object.js) is not
    among the sources; it yields the object of the literal it is given
    (the player-state record of two fields, the outbound messages). *)
Definition dict (literal : object) : object := literal.

(** Modelled from the spec: VideoEvents (src/video-interface.js) is not
    among the sources; the spec names the lifecycle events "metadata
    loaded" and the mute/unmute pair. *)
Module VideoEvents.
Definition LOADEDMETADATA : string := "loadedmetadata".
Definition MUTED : string := "muted".
Definition UNMUTED : string := "unmuted".
End VideoEvents.

(** Modelled from the spec: mutedOrUnmutedEvent (src/iframe-video.js)
    is not among the sources; the spec says the handler emits a
    mute/unmute event derived from the [muted] value, read here as the
    muted variant for a truthy value and the unmuted variant
    otherwise. *)
Definition mutedOrUnmutedEvent (isMuted : value) : string :=
  if ToBoolean isMuted then VideoEvents.MUTED else VideoEvents.UNMUTED.

Definition isObject (v : value) : bool :=
  match v with
  | JObj _ => true
  | _ => false
  end.

(** Modelled from the spec: objOrParseJson (src/iframe-video.js) is not
    among the sources; the spec calls it a safe JSON-or-passthrough
    parser: an already-structured object passes through, anything else
    is parsed as JSON, and a payload that fails to parse yields
    [undefined] and no error. *)
Definition objOrParseJson `{Host} (objOrStr : value) : value :=
  if isObject objOrStr then objOrStr
  else match JSON_parse (ToString objOrStr) with
       | Some parsed => parsed
       | None => JUndefined
       end.

(** Modelled from the spec: addParamsToUrl (src/url.js) is not among
    the sources; the spec calls it the URL query-parameter appender:
    the parameters are appended to the URL as a query string, each as
    [name=value] with both sides escaped, joined by [&], after a [?] or,
    when the URL has a query already, after a [&]. *)
Definition serializeQueryString (params : list (string * string)) : string :=
  String.concat "&"
    (map (fun p => encodeURIComponent (fst p) ++ "=" ++ encodeURIComponent (snd p))
         params).

Fixpoint includes (c : ascii) (s : string) : bool :=
  match s with
  | "" => false
  | String c' s' => Ascii.eqb c' c || includes c s'
  end.

Definition addParamsToUrl (url : string) (params : list (string * string)) : string :=
  match serializeQueryString params with
  | "" => url
  | paramString => url ++ (if includes "?" url then "&" else "?") ++ paramString
  end.

(** ** The component *)

Definition PlayerStates : list (string * string) :=
  [("-1", "unstarted");
   ("0", "ended");
   ("1", "playing");
   ("2", "pause");
   ("3", "buffering");
   ("5", "video_cued")].

Definition methods : list (string * string) :=
  [("play", "playVideo");
   ("pause", "pauseVideo");
   ("unmute", "unMute")].

Module PlayerFlags.
Definition HIDE_ANNOTATION : number := Int 3.
End PlayerFlags.

Definition VIDEO_EVENT_OPTIONS : CustomEventOptionsDef :=
  {| bubbles := false; cancelable := false |}.

Definition createDefaultInfo : object :=
  dict [("currentTime", JNum (Int 0)); ("duration", JNum NaN)].

(** The identifiers are strings or absent; an absent one and the empty
    string are falsy. *)
Definition truthy (s : option string) : bool :=
  match s with
  | Some t => negb (t =? "")
  | None => false
  end.

(** [s || ''] *)
Definition orEmpty (s : option string) : string :=
  match s with
  | Some t => t
  | None => ""
  end.

Definition getEmbedUrl (credentials videoid liveChannelid : option string) : string :=
  let urlSuffix :=
    match credentials with
    | Some c => if c =? "omit" then "-nocookie" else ""
    | None => ""
    end in
  let baseUrl := "https://www.youtube" ++ urlSuffix ++ ".com/embed/" in
  let descriptor :=
    if truthy videoid
    then encodeURIComponent (orEmpty videoid) ++ "?"
    else "live_stream?channel=" ++ encodeURIComponent (orEmpty liveChannelid) ++ "&" in
  baseUrl ++ descriptor ++ "enablejsapi=1&amp=1".

Definition dispatchVideoEvent (currentTarget : iframe) (name : eventName) : M unit :=
  emit (dispatchCustomEvent currentTarget name JNull VIDEO_EVENT_OPTIONS).

(** The loop over the keys of the player-state object: a key whose
    value in the payload is neither null nor undefined takes it. *)
Definition mergeInfo (parsedInfo : value) (info : object) : object :=
  map (fun p => if notNullish (Get parsedInfo (fst p))
                then (fst p, Get parsedInfo (fst p))
                else p)
      info.

Section Handlers.
Context `{Host}.

(** [loop] is the flag of the render that created the handler. *)
Definition onMessage (loop : bool) (e : Event) : M unit :=
  let parsedData := objOrParseJson (data e) in
  if negb (ToBoolean parsedData) then ret tt else
  let event := Get parsedData "event" in
  let parsedInfo := Get parsedData "info" in
  isInitial <- lift (looseEqualsText event "initialDelivery") ;;
  if isInitial
  then dispatchVideoEvent (currentTarget e) (Name VideoEvents.LOADEDMETADATA)
  else
  if negb (ToBoolean parsedInfo) then ret tt else
  updateInfo (mergeInfo parsedInfo) ;;
  let playerState := Get parsedInfo "playerState" in
  restart <- andThen (lift (looseEqualsText event "infoDelivery"))
               (andThen (lift (looseEqualsZero playerState)) (ret loop)) ;;
  when restart
    (emit (postMessage (currentTarget e)
             (JSON_stringify (JObj (dict [("event", JStr "command");
                                          ("func", JStr "playVideo")])))
             "*")) ;;
  stateChanged <- andThen (lift (looseEqualsText event "infoDelivery"))
                    (ret (notNullish playerState)) ;;
  when stateChanged
    (key <- lift (toString playerState) ;;
     dispatchVideoEvent (currentTarget e) (readTable PlayerStates key)) ;;
  muteChanged <- andThen (lift (looseEqualsText event "infoDelivery"))
                   (ret (ToBoolean (Get parsedInfo "muted"))) ;;
  when muteChanged
    (dispatchVideoEvent (currentTarget e)
       (Name (mutedOrUnmutedEvent (Get parsedInfo "muted")))).

Definition onIframeLoad (event : Event) : M unit :=
  dispatchVideoEvent (currentTarget event) (Name "canplay") ;;
  emit (postMessage (currentTarget event)
          (JSON_stringify (JObj (dict [("event", JStr "listening")])))
          "*").
End Handlers.

(** [methods[method]] as [JSON.stringify] reads it in a property: the
    string of the table; [undefined] for a name the table lacks; for a
    name of [Object.prototype], the inherited function, which a
    serialization leaves out as it does [undefined], or, for
    [__proto__], the prototype itself, an object with no property to
    print. *)
Definition readMethod (method : string) : value :=
  match readTable methods method with
  | Name func => JStr func
  | NameUndefined => JUndefined
  | NameInherited member => if member =? "__proto__" then JObj [] else JUndefined
  end.

Definition makeMethodMessage `{Host} (method : string) : string :=
  JSON_stringify (JObj (dict [("event", JStr "command");
                              ("func", readMethod method)])).

(** The declared input attributes. *)
Record YoutubeProps : Type := {
  autoplay : bool;
  loop : bool;
  videoid : option string;
  liveChannelid : option string;
  params : option (list (string * string));
  credentials : option string
}.

(** What the component hands to the video wrapper. *)
Record VideoWrapper : Type := {
  wrapper_autoplay : bool;
  wrapper_src : string;
  wrapper_onMessage : Event -> M unit;
  wrapper_onIframeLoad : Event -> M unit;
  wrapper_sandbox : string;
  wrapper_playerStateRef : object
}.

(** One render.  [playerStateRef] is what the ref holds when the render
    starts: nothing on the first render. *)
Definition YoutubeWithRef `{Host} (props : YoutubeProps) (playerStateRef : option object)
  : completion VideoWrapper :=
  let autoplay := autoplay props in
  let loop := loop props in
  let videoid := videoid props in
  let liveChannelid := liveChannelid props in
  let params := match params props with Some p => p | None => [] end in
  let credentials := credentials props in
  let datasourceExists :=
    negb (truthy videoid && truthy liveChannelid)
    && (truthy videoid || truthy liveChannelid) in
  if negb datasourceExists
  then Abrupt (Error "Exactly one of data-videoid or data-live-channelid should be present for <amp-youtube>")
  else
  let src := getEmbedUrl credentials videoid liveChannelid in
  let params :=
    if negb (has "playsinline" params) then set "playsinline" "1" params else params in
  let '(autoplay, params) :=
    if has "autoplay" params then (true, delete "autoplay" params)
    else (autoplay, params) in
  let params :=
    if autoplay
    then
      let params :=
        if negb (has "iv_load_policy" params)
        then set "iv_load_policy" (numberToString PlayerFlags.HIDE_ANNOTATION) params
        else params in
      set "playsinline" "1" params
    else params in
  let '(loop, params) :=
    if has "loop" params then (true, delete "loop" params) else (loop, params) in
  let params :=
    if loop
    then if has "playlist" params then set "loop" "1" params
         else if has "loop" params then delete "loop" params
         else params
    else params in
  let src := addParamsToUrl src params in
  let playerStateRef :=
    match playerStateRef with
    | Some current => current
    | None => createDefaultInfo
    end in
  Normal {| wrapper_autoplay := autoplay;
            wrapper_src := src;
            wrapper_onMessage := onMessage loop;
            wrapper_onIframeLoad := onIframeLoad;
            wrapper_sandbox := "allow-scripts allow-same-origin allow-presentation";
            wrapper_playerStateRef := playerStateRef |}.

(** ** A host to run the definitions in

    It prints an object of string-valued properties the way
    [JSON.stringify] does (texts without characters to escape), parses
    the JSON texts of two messages and of a number, and takes the texts
    [0] and the empty one for zero. *)

Definition quoted (s : string) : string :=
  String (ascii_of_nat 34) (s ++ String (ascii_of_nat 34) "").

Fixpoint stringifyProperties (fields : object) : list string :=
  match fields with
  | [] => []
  | (k, JStr s) :: rest => (quoted k ++ ":" ++ quoted s) :: stringifyProperties rest
  | _ :: rest => stringifyProperties rest
  end.

Definition sampleStringify (v : value) : string :=
  match v with
  | JObj fields => "{" ++ String.concat "," (stringifyProperties fields) ++ "}"
  | _ => "null"
  end.

Definition sampleInitialDelivery : value :=
  JObj [("event", JStr "initialDelivery")].

Definition sampleInfoDelivery : value :=
  JObj [("event", JStr "infoDelivery");
        ("info", JObj [("currentTime", JNum (Int 12)); ("playerState", JNum (Int 1))])].

(** The JSON text of [sampleInfoDelivery]. *)
Definition sampleInfoDeliveryText : string :=
  "{" ++ quoted "event" ++ ":" ++ quoted "infoDelivery" ++ ","
  ++ quoted "info" ++ ":{" ++ quoted "currentTime" ++ ":12,"
  ++ quoted "playerState" ++ ":1}}".

Definition sampleParse (text : string) : option value :=
  if text =? sampleStringify sampleInitialDelivery then Some sampleInitialDelivery
  else if text =? sampleInfoDeliveryText then Some sampleInfoDelivery
  else if text =? "7" then Some (JNum (Int 7))
  else None.

Definition sampleHost : Host := {|
  JSON_parse := sampleParse;
  JSON_stringify := sampleStringify;
  StringToNumber_isZero := fun s => (s =? "0") || (s =? "")
|}.

(** ** Vocabulary of the statements *)

(** An identifier is supplied when it is present and not empty. *)
Definition supplied (id : option string) : Prop :=
  exists text, id = Some text /\ text <> "".

Definition exactlyOneSupplied (props : YoutubeProps) : Prop :=
  (supplied (videoid props) /\ ~ supplied (liveChannelid props))
  \/ (~ supplied (videoid props) /\ supplied (liveChannelid props)).

(** The actions a handler adds to the trace when it runs in [w]. *)
Definition performs (m : M unit) (w : world) (actions : list effect) : Prop :=
  trace (snd (m w)) = (trace w ++ actions)%list.

(** The message a handler reads: the payload after parsing, its event
    name and its info. *)
Definition parsedDataOf `{Host} (e : Event) : value := objOrParseJson (data e).
Definition eventOf `{Host} (e : Event) : value := Get (parsedDataOf e) "event".
Definition infoOf `{Host} (e : Event) : value := Get (parsedDataOf e) "info".

Definition playCommand `{Host} (frame : iframe) : effect :=
  postMessage frame
    (JSON_stringify (JObj [("event", JStr "command"); ("func", JStr "playVideo")]))
    "*".

Definition listeningMessage `{Host} (frame : iframe) : effect :=
  postMessage frame (JSON_stringify (JObj [("event", JStr "listening")])) "*".

Definition videoEvent (frame : iframe) (name : eventName) : effect :=
  dispatchCustomEvent frame name JNull VIDEO_EVENT_OPTIONS.

(** The names of the events among some actions. *)
Definition dispatchedNames (actions : list effect) : list eventName :=
  flat_map (fun a => match a with
                     | dispatchCustomEvent _ name _ _ => [name]
                     | postMessage _ _ _ => []
                     end) actions.

(** The actions the message handler can take on a message, each with
    the condition of its branch. *)
Inductive handlerAction `{Host} (loop : bool) (e : Event) : effect -> Prop :=
| metadataLoaded :
    eventOf e = JStr "initialDelivery" ->
    handlerAction loop e (videoEvent (currentTarget e) (Name VideoEvents.LOADEDMETADATA))
| restarted :
    eventOf e = JStr "infoDelivery" ->
    looseEqualsZero (Get (infoOf e) "playerState") = Normal true ->
    loop = true ->
    handlerAction loop e (playCommand (currentTarget e))
| stateChanged (key : string) :
    eventOf e = JStr "infoDelivery" ->
    notNullish (Get (infoOf e) "playerState") = true ->
    toString (Get (infoOf e) "playerState") = Normal key ->
    handlerAction loop e (videoEvent (currentTarget e) (readTable PlayerStates key))
| muteChanged :
    eventOf e = JStr "infoDelivery" ->
    ToBoolean (Get (infoOf e) "muted") = true ->
    handlerAction loop e (videoEvent (currentTarget e) (Name VideoEvents.MUTED)).

(** The six codes of the player-state table. *)
Definition knownCodes : list Z := [-1; 0; 1; 2; 3; 5]%Z.

(** Reading a decimal text back. *)
Definition parseInt (s : string) : option Z :=
  option_map Z.of_int (NilZero.int_of_string s).

(** The text before and after the first [sep], and the pieces between
    separators. *)
Fixpoint beforeFirst (sep : ascii) (s : string) : string :=
  match s with
  | "" => ""
  | String c rest => if Ascii.eqb c sep then "" else String c (beforeFirst sep rest)
  end.

Fixpoint afterFirst (sep : ascii) (s : string) : string :=
  match s with
  | "" => ""
  | String c rest => if Ascii.eqb c sep then rest else afterFirst sep rest
  end.

Fixpoint splitOn (sep : ascii) (s : string) : list string :=
  match s with
  | "" => [""]
  | String c rest =>
      if Ascii.eqb c sep then "" :: splitOn sep rest
      else match splitOn sep rest with
           | [] => [String c ""]
           | piece :: pieces => String c piece :: pieces
           end
  end.

(** The query parameters of a URL, as written in it: what follows the
    first [?], cut at every [&], each piece cut at its first [=]. *)
Definition queryParameters (url : string) : list (string * string) :=
  match afterFirst "?" url with
  | "" => []
  | query => map (fun piece => (beforeFirst "=" piece, afterFirst "=" piece))
                 (splitOn "&" query)
  end.

(** The parameter rules of a render in closed form: the mapping the
    caller gave, the two flags after the rules, and the mapping that is
    appended to the URL, one stage per rule. *)
Definition paramsOf (props : YoutubeProps) : list (string * string) :=
  match params props with
  | Some p => p
  | None => []
  end.

Definition autoplayFlag (props : YoutubeProps) : bool :=
  autoplay props || has "autoplay" (paramsOf props).

Definition loopFlag (props : YoutubeProps) : bool :=
  loop props || has "loop" (paramsOf props).

Definition withPlaysinline (ps : list (string * string)) : list (string * string) :=
  if has "playsinline" ps then ps else set "playsinline" "1" ps.

Definition withAutoplay (flag : bool) (ps : list (string * string))
  : list (string * string) :=
  let ps' := delete "autoplay" ps in
  if flag
  then set "playsinline" "1"
         (if has "iv_load_policy" ps' then ps' else set "iv_load_policy" "3" ps')
  else ps'.

Definition withLoop (flag : bool) (ps : list (string * string))
  : list (string * string) :=
  let ps' := delete "loop" ps in
  if flag && has "playlist" ps' then set "loop" "1" ps' else ps'.

Definition embedParameters (props : YoutubeProps) : list (string * string) :=
  withLoop (loopFlag props)
    (withAutoplay (autoplayFlag props) (withPlaysinline (paramsOf props))).

Definition datasourceExists (props : YoutubeProps) : bool :=
  negb (truthy (videoid props) && truthy (liveChannelid props))
  && (truthy (videoid props) || truthy (liveChannelid props)).

(** The parameters [getEmbedUrl] writes itself. *)
Definition fixedParameters (videoid liveChannelid : option string)
  : list (string * string) :=
  if truthy videoid
  then [("enablejsapi", "1"); ("amp", "1")]
  else [("channel", encodeURIComponent (orEmpty liveChannelid));
        ("enablejsapi", "1"); ("amp", "1")].

Definition escapedPair (p : string * string) : string * string :=
  (encodeURIComponent (fst p), encodeURIComponent (snd p)).

Definition pairText (p : string * string) : string :=
  encodeURIComponent (fst p) ++ "=" ++ encodeURIComponent (snd p).

Definition isPostMessage (a : effect) : bool :=
  match a with
  | postMessage _ _ _ => true
  | dispatchCustomEvent _ _ _ _ => false
  end.

(** An action on one iframe in the way of the component: an event on
    the element with no detail, that neither bubbles nor can be
    cancelled, or a message to its content window for any origin. *)
Definition onFrame (frame : iframe) (a : effect) : Prop :=
  match a with
  | dispatchCustomEvent node _ detail options =>
      node = frame /\ detail = JNull
      /\ bubbles options = false /\ cancelable options = false
  | postMessage window _ targetOrigin => window = frame /\ targetOrigin = "*"
  end.

(** Whether the credentials mode is [omit]. *)
Definition omitsCredentials (props : YoutubeProps) : bool :=
  match credentials props with
  | Some mode => mode =? "omit"
  | None => false
  end.

(** The keys the parameter rules read or write. *)
Definition ruleKeys : list string :=
  ["playsinline"; "autoplay"; "iv_load_policy"; "loop"].

(** The props of the next render when the caller passes the same
    parameter object again: the rules have changed it in place. *)
Definition rerendered (props : YoutubeProps) : YoutubeProps :=
  {| autoplay := autoplay props;
     loop := loop props;
     videoid := videoid props;
     liveChannelid := liveChannelid props;
     params := Some (embedParameters props);
     credentials := credentials props |}.

(** Whether the handler reaches the merge: it depends on the message
    alone. *)
Definition reachesMerge `{Host} (e : Event) : bool :=
  ToBoolean (parsedDataOf e)
  && match looseEqualsText (eventOf e) "initialDelivery" with
     | Normal false => ToBoolean (infoOf e)
     | _ => false
     end.


(** [text.startsWith(start)]. *)
Fixpoint startsWith (text start : string) {struct start} : bool :=
  match start with
  | "" => true
  | String c start' =>
      match text with
      | "" => false
      | String d text' => Ascii.eqb c d && startsWith text' start'
      end
  end.

(** ** Sample inputs *)

Definition firstRender : world :=
  {| playerStateRef_current := createDefaultInfo; trace := [] |}.

Definition message (frame : iframe) (event : string) (info : object) : Event :=
  {| data := JObj [("event", JStr event); ("info", JObj info)];
     currentTarget := frame |}.

Definition textMessage (frame : iframe) (text : string) : Event :=
  {| data := JStr text; currentTarget := frame |}.

Definition autoplayByParameter : YoutubeProps :=
  {| autoplay := false;
     loop := false;
     videoid := Some "dQw4w9WgXcQ";
     liveChannelid := None;
     params := Some [("autoplay", "1"); ("playsinline", "0")];
     credentials := None |}.

Definition loopWithPlaylist : YoutubeProps :=
  {| autoplay := false;
     loop := true;
     videoid := None;
     liveChannelid := Some "UC b/1";
     params := Some [("playlist", "a,b")];
     credentials := Some "omit" |}.

Definition loopWithoutPlaylist : YoutubeProps :=
  {| autoplay := false;
     loop := false;
     videoid := Some "dQw4w9WgXcQ";
     liveChannelid := None;
     params := Some [("loop", "1")];
     credentials := None |}.

Definition callerParameters : YoutubeProps :=
  {| autoplay := true;
     loop := false;
     videoid := Some "dQw4w9WgXcQ";
     liveChannelid := None;
     params := Some [("start", "1 0"); ("iv_load_policy", "1"); ("playsinline", "0")];
     credentials := Some "omit" |}.

(** * Properties *)

#[local] Arguments String.eqb : simpl never.

(** Comparisons of two literal texts are decided by evaluation. *)
Ltac decide_eqb :=
  repeat match goal with
         | |- context [String.eqb ?a ?b] =>
             let r := eval vm_compute in (String.eqb a b) in
             match r with
             | true => change (String.eqb a b) with true
             | false => change (String.eqb a b) with false
             end
         end.

Ltac run_handler :=
  unfold onMessage, andThen, when, dispatchVideoEvent, emit, updateInfo,
    bind, lift, ret;
  cbn [fst snd trace playerStateRef_current negb].

(** ** Values and the player-state object *)

Example encodeURIComponent_unreserved :
  encodeURIComponent "dQw4w9WgXcQ" = "dQw4w9WgXcQ".
Proof. reflexivity. Qed.

Example encodeURIComponent_reserved :
  encodeURIComponent "a b&c=d/?" = "a%20b%26c%3Dd%2F%3F".
Proof. reflexivity. Qed.

Example queryParameters_sample :
  queryParameters "https://www.youtube.com/embed/a%20b?enablejsapi=1&amp=1&playsinline=1"
  = [("enablejsapi", "1"); ("amp", "1"); ("playsinline", "1")].
Proof. reflexivity. Qed.

Example numberToString_codes :
  map (fun z => numberToString (Int z)) knownCodes = ["-1"; "0"; "1"; "2"; "3"; "5"].
Proof. reflexivity. Qed.

Lemma looseEqualsText_true (v : value) (s : string) :
  looseEqualsText v s = Normal true -> s <> "[object Object]" -> v = JStr s.
Proof.
  destruct v; simpl; try discriminate.
  - intros E _. injection E as E. apply String.eqb_eq in E. now subst.
  - unfold ToPrimitive. destruct (has "toString" fields); try discriminate.
    intros E Hs. injection E as E. apply String.eqb_eq in E. congruence.
Qed.

Lemma Get_truthy_source (v : value) (k : string) :
  notNullish (Get v k) = true -> ToBoolean v = true.
Proof. destruct v; simpl; try discriminate; reflexivity. Qed.

Lemma falsy_not_object (v : value) : ToBoolean v = false -> isObject v = false.
Proof. destruct v; simpl; congruence. Qed.

Lemma mergeInfo_primitive (parsedInfo : value) (info : object) :
  isObject parsedInfo = false -> mergeInfo parsedInfo info = info.
Proof.
  intros Hp. unfold mergeInfo.
  assert (Hg : forall k, Get parsedInfo k = JUndefined)
    by (intros k; destruct parsedInfo; simpl in *; congruence).
  induction info as [|p info IH]; simpl; [reflexivity|].
  rewrite Hg. simpl. now rewrite IH.
Qed.

(** The merge keeps the keys of the object, in their order. *)
Lemma mergeInfo_keys (parsedInfo : value) (info : object) :
  map fst (mergeInfo parsedInfo info) = map fst info.
Proof.
  unfold mergeInfo. rewrite map_map. apply map_ext.
  intros p. now destruct (notNullish (Get parsedInfo (fst p))).
Qed.

(** A key of the object takes the value of the payload when that is
    neither null nor undefined; a key that is not in the object stays
    out of it. *)
Lemma mergeInfo_lookup (parsedInfo : value) (info : object) (k : string) :
  lookup k (mergeInfo parsedInfo info)
  = match lookup k info with
    | Some old => Some (if notNullish (Get parsedInfo k) then Get parsedInfo k else old)
    | None => None
    end.
Proof.
  induction info as [|[k' v'] info IH]; simpl; [reflexivity|].
  destruct (notNullish (Get parsedInfo k')) eqn:En; simpl;
    destruct (k' =? k) eqn:Ek; auto;
    apply String.eqb_eq in Ek; subst; now rewrite En.
Qed.

(** ** The player-state table *)

Lemma parseInt_numberToString (z : Z) : parseInt (numberToString (Int z)) = Some z.
Proof.
  unfold parseInt, numberToString.
  rewrite NilZero.isi.
  - simpl. now rewrite DecimalZ.of_to.
  - destruct z; simpl; try discriminate.
    intros [= E]. now apply DecimalPos.Unsigned.to_uint_nonnil in E.
  - destruct z; simpl; try discriminate.
    intros [= E]. now apply DecimalPos.Unsigned.to_uint_nonnil in E.
Qed.

Lemma numberToString_is (z : Z) (s : string) :
  numberToString (Int z) = s -> parseInt s = Some z.
Proof. intros <-. apply parseInt_numberToString. Qed.

(** The six codes have the names of the table. *)
Lemma readTable_known_codes :
  map (fun z => readTable PlayerStates (numberToString (Int z))) knownCodes
  = [Name "unstarted"; Name "ended"; Name "playing"; Name "pause";
     Name "buffering"; Name "video_cued"].
Proof. reflexivity. Qed.

(** Any other integer code reads [undefined] from the table. *)
Lemma readTable_unknown_code (z : Z) :
  ~ In z knownCodes ->
  readTable PlayerStates (numberToString (Int z)) = NameUndefined.
Proof.
  intros Hz. unfold readTable, PlayerStates, ObjectPrototype.
  cbn [lookup existsb].
  repeat match goal with
         | |- context [?k =? numberToString (Int z)] =>
             let E := fresh "E" in
             destruct (k =? numberToString (Int z)) eqn:E;
             [ apply String.eqb_eq in E; symmetry in E;
               apply numberToString_is in E; vm_compute in E;
               first [ discriminate E
                     | injection E as E; exfalso; apply Hz; subst z; simpl; tauto ]
             | clear E ]
         | |- context [numberToString (Int z) =? ?k] =>
             let E := fresh "E" in
             destruct (numberToString (Int z) =? k) eqn:E;
             [ apply String.eqb_eq in E;
               apply numberToString_is in E; vm_compute in E; discriminate E
             | clear E ]
         end.
  reflexivity.
Qed.

(** No key of the table reads one of the mute events. *)
Lemma readTable_PlayerStates_no_mute (key : string) :
  readTable PlayerStates key <> Name VideoEvents.UNMUTED
  /\ readTable PlayerStates key <> Name VideoEvents.MUTED.
Proof.
  unfold readTable, PlayerStates. cbn [lookup].
  repeat match goal with
         | |- context [if ?b =? key then _ else _] => destruct (b =? key)
         end;
    try (split; discriminate).
  destruct (existsb (String.eqb key) ObjectPrototype); split; discriminate.
Qed.

(** ** The message handler *)

Section MessageBridge.
Context `{Host}.

Lemma performs_nil (m : M unit) (w : world) :
  trace (snd (m w)) = trace w -> performs m w [].
Proof. unfold performs. intros ->. now rewrite app_nil_r. Qed.

Lemma eventOf_parsed (e : Event) (s : string) :
  eventOf e = JStr s -> ToBoolean (parsedDataOf e) = true.
Proof. unfold eventOf. now destruct (parsedDataOf e). Qed.

(** A payload that parses to nothing, or to a falsy value, ends the
    handler at its first test. *)
Lemma onMessage_unparsed (loop : bool) (e : Event) (w : world) :
  ToBoolean (parsedDataOf e) = false -> onMessage loop e w = (Normal tt, w).
Proof.
  intros Hp. unfold onMessage. fold (parsedDataOf e). now rewrite Hp.
Qed.

Lemma onMessage_initialDelivery (loop : bool) (e : Event) (w : world) :
  eventOf e = JStr "initialDelivery" ->
  onMessage loop e w
  = (Normal tt,
     {| playerStateRef_current := playerStateRef_current w;
        trace := trace w ++ [videoEvent (currentTarget e)
                               (Name VideoEvents.LOADEDMETADATA)] |}).
Proof.
  intros He. unfold onMessage. fold (parsedDataOf e) (eventOf e).
  rewrite (eventOf_parsed _ _ He), He. reflexivity.
Qed.

(** The player-state object after a message that is no initial
    delivery: the merge has run, whatever the handler did next. *)
Lemma onMessage_merges (loop : bool) (e : Event) (w : world) :
  looseEqualsText (eventOf e) "initialDelivery" = Normal false ->
  playerStateRef_current (snd (onMessage loop e w))
  = mergeInfo (infoOf e) (playerStateRef_current w).
Proof.
  intros He.
  destruct (ToBoolean (parsedDataOf e)) eqn:Hp.
  2:{ rewrite onMessage_unparsed by assumption. simpl.
      unfold infoOf. symmetry. apply mergeInfo_primitive.
      destruct (parsedDataOf e); simpl in *; try reflexivity; discriminate. }
  run_handler. fold (parsedDataOf e) (eventOf e) (infoOf e).
  rewrite Hp, He. cbn [negb].
  destruct (ToBoolean (infoOf e)) eqn:Hi; cbn [negb snd playerStateRef_current].
  2:{ symmetry. apply mergeInfo_primitive. now apply falsy_not_object. }
  repeat match goal with
         | |- context [match ?c with Normal _ => _ | Abrupt _ => _ end] =>
             destruct c as [[|]|]
         | |- context [if ?b then _ else _] => destruct b
         end; reflexivity.
Qed.

(** Every action of the handler is one of [handlerAction]. *)
Lemma onMessage_actions (loop : bool) (e : Event) (w : world) :
  exists actions,
    performs (onMessage loop e) w actions /\ Forall (handlerAction loop e) actions.
Proof.
  destruct (ToBoolean (parsedDataOf e)) eqn:Hp.
  2:{ exists []. split; [|constructor].
      apply performs_nil. now rewrite onMessage_unparsed. }
  destruct (looseEqualsText (eventOf e) "initialDelivery") as [[|]|] eqn:E1.
  - apply looseEqualsText_true in E1; [|discriminate].
    eexists. split.
    + unfold performs. rewrite onMessage_initialDelivery by assumption. reflexivity.
    + repeat constructor. assumption.
  - unfold performs. run_handler. fold (parsedDataOf e) (eventOf e) (infoOf e).
    rewrite Hp, E1. cbn [negb].
    destruct (ToBoolean (infoOf e)) eqn:Hi; cbn [negb].
    2:{ exists []. split; [now rewrite app_nil_r | constructor]. }
    destruct (looseEqualsText (eventOf e) "infoDelivery") as [[|]|] eqn:E2.
    2,3: exists []; split; [cbn; now rewrite app_nil_r | constructor].
    apply looseEqualsText_true in E2; [|discriminate].
    unfold mutedOrUnmutedEvent.
    destruct (looseEqualsZero (Get (infoOf e) "playerState")) as [[|]|] eqn:Ez;
      [destruct loop eqn:El| |];
      (destruct (notNullish (Get (infoOf e) "playerState")) eqn:En;
       [destruct (toString (Get (infoOf e) "playerState")) as [key|] eqn:Et|]);
      destruct (ToBoolean (Get (infoOf e) "muted")) eqn:Em;
      cbn [fst snd trace playerStateRef_current];
      rewrite <- ?app_assoc;
      (eexists; split;
       [ first [reflexivity | symmetry; apply app_nil_r]
       | cbn [app];
         repeat first
           [ apply Forall_nil
           | apply Forall_cons;
             [ first [ now apply restarted
                     | eapply stateChanged; eassumption
                     | now apply muteChanged ] | ] ] ]).
  - exists []. split; [|constructor]. apply performs_nil.
    run_handler. fold (parsedDataOf e) (eventOf e). now rewrite Hp, E1.
Qed.

Lemma handlerAction_names (loop : bool) (e : Event) (a : effect) :
  handlerAction loop e a ->
  ~ In (Name VideoEvents.UNMUTED) (dispatchedNames [a])
  /\ (ToBoolean (Get (infoOf e) "muted") = false ->
      ~ In (Name VideoEvents.MUTED) (dispatchedNames [a])).
Proof.
  destruct 1 as [He|He Hz Hl|key He Hn Ht|He Hm]; cbn.
  - split; [|intros _]; intros [E|[]]; discriminate E.
  - tauto.
  - destruct (readTable_PlayerStates_no_mute key) as [N1 N2].
    split; [|intros _]; intros [E|[]]; congruence.
  - split.
    + intros [E|[]]; discriminate E.
    + congruence.
Qed.

(** An info delivery that carries an integer player-state code. *)
Lemma onMessage_code (loop : bool) (e : Event) (w : world) (code : Z) :
  eventOf e = JStr "infoDelivery" ->
  Get (infoOf e) "playerState" = JNum (Int code) ->
  onMessage loop e w
  = (Normal tt,
     {| playerStateRef_current := mergeInfo (infoOf e) (playerStateRef_current w);
        trace :=
          trace w
          ++ (if (code =? 0)%Z && loop then [playCommand (currentTarget e)] else [])
          ++ [videoEvent (currentTarget e)
                (readTable PlayerStates (numberToString (Int code)))]
          ++ (if ToBoolean (Get (infoOf e) "muted")
              then [videoEvent (currentTarget e) (Name VideoEvents.MUTED)]
              else []) |}).
Proof.
  intros Hev Hps.
  assert (Hinfo : ToBoolean (infoOf e) = true).
  { apply Get_truthy_source with (k := "playerState"). now rewrite Hps. }
  run_handler. fold (parsedDataOf e) (eventOf e) (infoOf e).
  rewrite (eventOf_parsed _ _ Hev), Hev, Hinfo, Hps. unfold mutedOrUnmutedEvent.
  cbn [looseEqualsText looseEqualsZero toString notNullish negb]. decide_eqb.
  destruct (code =? 0)%Z, loop, (ToBoolean (Get (infoOf e) "muted"));
    cbn; rewrite <- ?app_assoc, ?app_nil_r; reflexivity.
Qed.

(** A message whose event is neither of the two deliveries makes the
    handler dispatch nothing and post nothing. *)
Lemma onMessage_other_event (loop : bool) (e : Event) (w : world) :
  eventOf e <> JStr "initialDelivery" ->
  eventOf e <> JStr "infoDelivery" ->
  performs (onMessage loop e) w [].
Proof.
  intros N1 N2. destruct (onMessage_actions loop e w) as (actions & Hrun & Hall).
  destruct Hall as [|a actions Ha _]; [assumption|].
  destruct Ha; contradiction.
Qed.

(** An integer code outside the table makes the handler dispatch an
    event whose name is [undefined]. *)
Lemma onMessage_unknown_code (loop : bool) (e : Event) (w : world) (code : Z) :
  eventOf e = JStr "infoDelivery" ->
  Get (infoOf e) "playerState" = JNum (Int code) ->
  ~ In code knownCodes ->
  exists actions,
    performs (onMessage loop e) w actions
    /\ In (videoEvent (currentTarget e) NameUndefined) actions.
Proof.
  intros Hev Hps Hcode. eexists. split.
  - unfold performs. rewrite (onMessage_code loop e w code Hev Hps). reflexivity.
  - rewrite (readTable_unknown_code code Hcode).
    apply in_or_app. right. now left.
Qed.

(** C2: an info delivery whose playerState is 0 (the ended code) makes
    the handler post exactly one message, the serialized play command
    [{event: command, func: playVideo}], when looping is enabled, and
    no message when it is not; the only other actions are the events
    of the state and of the mute flag. *)
Theorem C2_ended_restarts_when_looping (loop : bool) (e : Event) (w : world) :
  eventOf e = JStr "infoDelivery" ->
  Get (infoOf e) "playerState" = JNum (Int 0) ->
  fst (onMessage loop e w) = Normal tt
  /\ performs (onMessage loop e) w
       ((if loop then [playCommand (currentTarget e)] else [])
        ++ [videoEvent (currentTarget e) (Name "ended")]
        ++ (if ToBoolean (Get (infoOf e) "muted")
            then [videoEvent (currentTarget e) (Name VideoEvents.MUTED)]
            else [])).
Proof.
  intros Hev Hps. unfold performs.
  rewrite (onMessage_code loop e w 0 Hev Hps). split; reflexivity.
Qed.

(** C3: a player-state code outside the six of the table is not
    ignored: for the code 4 the handler dispatches one event, and the
    name it passes is [undefined]. *)
Theorem C3_unknown_code_dispatches_undefined (loop : bool) (frame : iframe) :
  onMessage loop (message frame "infoDelivery" [("playerState", JNum (Int 4))])
    firstRender
  = (Normal tt,
     {| playerStateRef_current := createDefaultInfo;
        trace := [videoEvent frame NameUndefined] |}).
Proof. destruct loop; reflexivity. Qed.

(** C4: a message whose event is neither delivery does change the
    player-state record: the merge runs before the event is looked
    at, and here it sets the position to 42. *)
Theorem C4_other_event_merges_info (loop : bool) (frame : iframe) :
  onMessage loop (message frame "other" [("currentTime", JNum (Int 42))]) firstRender
  = (Normal tt,
     {| playerStateRef_current :=
          [("currentTime", JNum (Int 42)); ("duration", JNum NaN)];
        trace := [] |}).
Proof. destruct loop; reflexivity. Qed.

(** C7: after an info delivery the player-state record has its two
    fields and no other; each holds the value of the payload when the
    payload gives one that is neither null nor undefined, and its
    previous value otherwise. *)
Theorem C7_merge_overwrites_supplied_fields
    (loop : bool) (e : Event) (w : world) (position duration : value) :
  eventOf e = JStr "infoDelivery" ->
  playerStateRef_current w = [("currentTime", position); ("duration", duration)] ->
  playerStateRef_current (snd (onMessage loop e w))
  = [("currentTime", if notNullish (Get (infoOf e) "currentTime")
                     then Get (infoOf e) "currentTime" else position);
     ("duration", if notNullish (Get (infoOf e) "duration")
                  then Get (infoOf e) "duration" else duration)].
Proof.
  intros Hev Hw. rewrite onMessage_merges by (now rewrite Hev).
  rewrite Hw. unfold mergeInfo. cbn [map fst].
  now destruct (notNullish (Get (infoOf e) "currentTime")),
               (notNullish (Get (infoOf e) "duration")).
Qed.

(** C8: a payload that is no object and does not parse as JSON makes
    the handler return at once: no event, no message, the player-state
    record as it was. *)
Theorem C8_unparsable_payload_ignored (loop : bool) (e : Event) (w : world) :
  isObject (data e) = false ->
  JSON_parse (ToString (data e)) = None ->
  onMessage loop e w = (Normal tt, w).
Proof.
  intros Ho Hp. apply onMessage_unparsed.
  unfold parsedDataOf, objOrParseJson. now rewrite Ho, Hp.
Qed.

(** C9: the load handler dispatches [canplay] and then posts the
    [{event: listening}] message, these two actions in this order and
    nothing else. *)
Theorem C9_canplay_before_listening (event : Event) (w : world) :
  onIframeLoad event w
  = (Normal tt,
     {| playerStateRef_current := playerStateRef_current w;
        trace := trace w ++ [videoEvent (currentTarget event) (Name "canplay");
                             listeningMessage (currentTarget event)] |}).
Proof.
  unfold onIframeLoad, dispatchVideoEvent, emit, bind.
  cbn [trace playerStateRef_current]. now rewrite <- app_assoc.
Qed.

(** C10: the handler never dispatches the unmuted event, and it
    dispatches no mute event at all for a message whose [muted] field
    is falsy: the branch is entered only for a truthy field. *)
Theorem C10_only_muted_variant (loop : bool) (e : Event) (w : world) :
  exists actions,
    performs (onMessage loop e) w actions
    /\ ~ In (Name VideoEvents.UNMUTED) (dispatchedNames actions)
    /\ (ToBoolean (Get (infoOf e) "muted") = false ->
        ~ In (Name VideoEvents.MUTED) (dispatchedNames actions)).
Proof.
  destruct (onMessage_actions loop e w) as (actions & Hrun & Hall).
  exists actions. split; [assumption|].
  clear Hrun. induction Hall as [|a actions Ha _ IH]; [simpl; tauto|].
  destruct IH as [IH1 IH2].
  destruct (handlerAction_names loop e a Ha) as [N1 N2].
  change (a :: actions) with ([a] ++ actions)%list.
  unfold dispatchedNames in *. rewrite flat_map_app.
  split; [|intros Hm]; rewrite in_app_iff; intros [Hin|Hin]; auto.
  - now apply N2.
  - now apply IH2.
Qed.
End MessageBridge.

(** ** Texts, separators and escaping *)

Lemma append_assoc (a b c : string) : (a ++ b) ++ c = a ++ b ++ c.
Proof. induction a; simpl; congruence. Qed.

Lemma includes_app (sep : ascii) (a b : string) :
  includes sep (a ++ b) = includes sep a || includes sep b.
Proof.
  induction a as [|c a IH]; simpl; [reflexivity|].
  rewrite IH. now rewrite orb_assoc.
Qed.

Lemma afterFirst_app (sep : ascii) (a b : string) :
  includes sep a = false -> afterFirst sep (a ++ String sep b) = b.
Proof.
  induction a as [|c a IH]; simpl.
  - now rewrite Ascii.eqb_refl.
  - intros Hc. apply orb_false_iff in Hc as [Hc Ha]. rewrite Hc. auto.
Qed.

Lemma beforeFirst_app (sep : ascii) (a b : string) :
  includes sep a = false -> beforeFirst sep (a ++ String sep b) = a.
Proof.
  induction a as [|c a IH]; simpl.
  - now rewrite Ascii.eqb_refl.
  - intros Hc. apply orb_false_iff in Hc as [Hc Ha]. rewrite Hc. now rewrite IH.
Qed.

Lemma splitOn_app (sep : ascii) (a b : string) :
  includes sep a = false -> splitOn sep (a ++ String sep b) = a :: splitOn sep b.
Proof.
  induction a as [|c a IH]; simpl.
  - now rewrite Ascii.eqb_refl.
  - intros Hc. apply orb_false_iff in Hc as [Hc Ha]. rewrite Hc. now rewrite IH.
Qed.

Lemma splitOn_whole (sep : ascii) (a : string) :
  includes sep a = false -> splitOn sep a = [a].
Proof.
  induction a as [|c a IH]; simpl; [reflexivity|].
  intros Hc. apply orb_false_iff in Hc as [Hc Ha]. rewrite Hc. now rewrite IH.
Qed.

Lemma splitOn_concat (sep : ascii) (piece : string) (pieces : list string) :
  Forall (fun p => includes sep p = false) (piece :: pieces) ->
  splitOn sep (String.concat (String sep "") (piece :: pieces)) = piece :: pieces.
Proof.
  revert piece. induction pieces as [|q pieces IH]; intros piece Hall.
  - simpl. apply splitOn_whole. now inversion Hall.
  - inversion Hall as [|? ? Hp Hrest]; subst.
    change (String.concat (String sep "") (piece :: q :: pieces))
      with (piece ++ String sep (String.concat (String sep "") (q :: pieces))).
    rewrite splitOn_app by assumption. now rewrite IH.
Qed.

Lemma encodeByte_separators (c : ascii) :
  includes "&" (encodeByte c) = false
  /\ includes "=" (encodeByte c) = false
  /\ includes "?" (encodeByte c) = false.
Proof.
  destruct c as [[] [] [] [] [] [] [] []]; vm_compute; auto.
Qed.

Lemma encodeURIComponent_separators (s : string) :
  includes "&" (encodeURIComponent s) = false
  /\ includes "=" (encodeURIComponent s) = false
  /\ includes "?" (encodeURIComponent s) = false.
Proof.
  induction s as [|c s (IH1 & IH2 & IH3)]; [now vm_compute|].
  destruct (encodeByte_separators c) as (B1 & B2 & B3).
  cbn [encodeURIComponent]. rewrite !includes_app, B1, B2, B3, IH1, IH2, IH3. auto.
Qed.

(** A text without [%] is the escaped form of itself only. *)
Lemma encodeByte_head (c : ascii) :
  encodeByte c = String c "" \/ exists rest, encodeByte c = String "%" rest.
Proof.
  unfold encodeByte. destruct (isUnreserved c); eauto.
Qed.

Lemma encodeURIComponent_plain (s t : string) :
  encodeURIComponent s = t -> includes "%" t = false -> s = t.
Proof.
  revert t. induction s as [|c s IH]; intros t; simpl.
  - now intros <-.
  - destruct (encodeByte_head c) as [-> | [rest ->]]; simpl; intros <-; simpl.
    + intros Hc. apply orb_false_iff in Hc as [_ Hc]. f_equal. now apply IH.
    + discriminate.
Qed.

(** ** Property lists *)

Section PropertyLists.
Context {A : Type}.
Implicit Types (o : list (string * A)) (k : string) (v : A).

Lemma has_In k o : has k o = true <-> exists v, In (k, v) o.
Proof.
  unfold has. rewrite existsb_exists. split.
  - intros ([k' v] & Hin & E). apply String.eqb_eq in E. simpl in E. subst. eauto.
  - intros (v & Hin). exists (k, v). split; [assumption|]. apply String.eqb_refl.
Qed.

Lemma has_app k o o' : has k (o ++ o') = has k o || has k o'.
Proof. unfold has. apply existsb_app. Qed.

Lemma In_set_same k v o : In (k, v) (set k v o).
Proof.
  unfold set. destruct (has k o) eqn:E.
  - apply has_In in E as (v' & Hin).
    apply in_map_iff. exists (k, v'). cbn [fst]. now rewrite String.eqb_refl.
  - apply in_or_app. right. now left.
Qed.

Lemma In_set_value k v v' o : In (k, v') (set k v o) -> v' = v.
Proof.
  unfold set. destruct (has k o) eqn:E.
  - intros Hin. apply in_map_iff in Hin as ([k0 v0] & Heq & Hin). cbn [fst] in Heq.
    destruct (k0 =? k) eqn:Ek.
    + congruence.
    + injection Heq as -> ->. now rewrite String.eqb_refl in Ek.
  - intros Hin. apply in_app_or in Hin as [Hin|[Heq|[]]].
    + assert (has k o = true) by (apply has_In; eauto). congruence.
    + congruence.
Qed.

Lemma In_set_other k v k' v' o :
  k' <> k -> (In (k', v') (set k v o) <-> In (k', v') o).
Proof.
  intros Hne. unfold set. destruct (has k o).
  - rewrite in_map_iff. split.
    + intros ([k0 v0] & Heq & Hin). cbn [fst] in Heq.
      destruct (k0 =? k); [congruence|]. now rewrite <- Heq.
    + intros Hin. exists (k', v'). cbn [fst].
      apply String.eqb_neq in Hne. now rewrite Hne.
  - rewrite in_app_iff. split; [|tauto].
    intros [Hin|[Heq|[]]]; [assumption|congruence].
Qed.

Lemma In_delete k k' v' o : In (k', v') (delete k o) <-> In (k', v') o /\ k' <> k.
Proof.
  unfold delete. rewrite filter_In. cbn [fst].
  rewrite negb_true_iff, String.eqb_neq. tauto.
Qed.

Lemma has_set_same k v o : has k (set k v o) = true.
Proof. apply has_In. exists v. apply In_set_same. Qed.

Lemma has_eq_of_In k o o' :
  (forall v, In (k, v) o <-> In (k, v) o') -> has k o = has k o'.
Proof.
  intros Hiff. destruct (has k o') eqn:E'.
  - apply has_In in E' as (v & Hin). apply has_In. exists v. now apply Hiff.
  - destruct (has k o) eqn:E; [|reflexivity].
    apply has_In in E as (v & Hin). apply Hiff in Hin.
    assert (has k o' = true) by (apply has_In; eauto). congruence.
Qed.

Lemma has_set_other k v k' o : k' <> k -> has k' (set k v o) = has k' o.
Proof. intros Hne. apply has_eq_of_In. intros v'. now apply In_set_other. Qed.

Lemma has_delete_other k k' o : k' <> k -> has k' (delete k o) = has k' o.
Proof.
  intros Hne. apply has_eq_of_In. intros v'. rewrite In_delete. tauto.
Qed.

Lemma has_delete_same k o : has k (delete k o) = false.
Proof.
  destruct (has k (delete k o)) eqn:E; [|reflexivity].
  apply has_In in E as (v & Hin). apply In_delete in Hin. tauto.
Qed.

Lemma delete_absent k o : has k o = false -> delete k o = o.
Proof.
  unfold delete, has. induction o as [|[k0 v0] o IH]; simpl; [reflexivity|].
  intros E. apply orb_false_iff in E as [E1 E2]. rewrite E1. simpl. now rewrite IH.
Qed.
End PropertyLists.

(** ** The parameter rules *)

Section Stages.
Implicit Types (ps : list (string * string)) (k v : string).

Lemma has_withPlaysinline k ps :
  k <> "playsinline" -> has k (withPlaysinline ps) = has k ps.
Proof.
  intros Hk. unfold withPlaysinline.
  destruct (has "playsinline" ps); [reflexivity|]. now apply has_set_other.
Qed.

Lemma has_withAutoplay k flag ps :
  k <> "playsinline" -> k <> "iv_load_policy" -> k <> "autoplay" ->
  has k (withAutoplay flag ps) = has k ps.
Proof.
  intros K1 K2 K3. unfold withAutoplay.
  destruct flag; [|now apply has_delete_other].
  rewrite has_set_other by assumption.
  destruct (has "iv_load_policy" (delete "autoplay" ps));
    rewrite ?has_set_other by assumption; now apply has_delete_other.
Qed.

Lemma In_withLoop k v flag ps :
  k <> "loop" -> (In (k, v) (withLoop flag ps) <-> In (k, v) ps).
Proof.
  intros Hk. unfold withLoop.
  destruct (flag && has "playlist" (delete "loop" ps));
    rewrite ?In_set_other, In_delete by assumption; tauto.
Qed.

Lemma has_withLoop k flag ps : k <> "loop" -> has k (withLoop flag ps) = has k ps.
Proof. intros Hk. apply has_eq_of_In. intros v. now apply In_withLoop. Qed.

Lemma withAutoplay_forced ps :
  has "iv_load_policy" ps = false ->
  In ("iv_load_policy", "3") (withAutoplay true ps)
  /\ In ("playsinline", "1") (withAutoplay true ps)
  /\ (forall v, In ("playsinline", v) (withAutoplay true ps) -> v = "1").
Proof.
  intros Hiv. unfold withAutoplay.
  rewrite has_delete_other, Hiv by discriminate. repeat split.
  - apply In_set_other; [discriminate|]. apply In_set_same.
  - apply In_set_same.
  - intros v. apply In_set_value.
Qed.

Lemma has_autoplay_withAutoplay flag ps : has "autoplay" (withAutoplay flag ps) = false.
Proof.
  unfold withAutoplay. destruct flag; [|apply has_delete_same].
  rewrite has_set_other by discriminate.
  destruct (has "iv_load_policy" (delete "autoplay" ps));
    rewrite ?has_set_other by discriminate; apply has_delete_same.
Qed.

Lemma withLoop_loop flag ps :
  if flag && has "playlist" ps
  then In ("loop", "1") (withLoop flag ps)
  else has "loop" (withLoop flag ps) = false.
Proof.
  unfold withLoop. rewrite has_delete_other by discriminate.
  destruct (flag && has "playlist" ps); [apply In_set_same | apply has_delete_same].
Qed.
End Stages.

Lemma embedParameters_playsinline (props : YoutubeProps) :
  has "playsinline" (embedParameters props) = true.
Proof.
  unfold embedParameters. rewrite has_withLoop by discriminate.
  unfold withAutoplay. destruct (autoplayFlag props); [apply has_set_same|].
  rewrite has_delete_other by discriminate.
  unfold withPlaysinline.
  destruct (has "playsinline" (paramsOf props)) eqn:E; [assumption | apply has_set_same].
Qed.

Lemma embedParameters_autoplay (props : YoutubeProps) :
  autoplayFlag props = true ->
  has "iv_load_policy" (paramsOf props) = false ->
  In ("iv_load_policy", "3") (embedParameters props)
  /\ In ("playsinline", "1") (embedParameters props)
  /\ (forall v, In ("playsinline", v) (embedParameters props) -> v = "1").
Proof.
  intros Ha Hiv. unfold embedParameters. rewrite Ha.
  destruct (withAutoplay_forced (withPlaysinline (paramsOf props))) as (I1 & I2 & I3).
  { now rewrite has_withPlaysinline by discriminate. }
  repeat split; try intros v; rewrite In_withLoop by discriminate; auto.
Qed.

Lemma embedParameters_no_autoplay (props : YoutubeProps) :
  has "autoplay" (embedParameters props) = false.
Proof.
  unfold embedParameters. rewrite has_withLoop by discriminate.
  apply has_autoplay_withAutoplay.
Qed.

Lemma embedParameters_loop (props : YoutubeProps) :
  if loopFlag props && has "playlist" (paramsOf props)
  then In ("loop", "1") (embedParameters props)
  else has "loop" (embedParameters props) = false.
Proof.
  unfold embedParameters.
  rewrite <- (has_withPlaysinline "playlist" (paramsOf props)) by discriminate.
  rewrite <- (has_withAutoplay "playlist" (autoplayFlag props)) by discriminate.
  apply withLoop_loop.
Qed.

(** ** The render *)

Lemma supplied_truthy (id : option string) : truthy id = true <-> supplied id.
Proof.
  unfold supplied, truthy. destruct id as [text|].
  - rewrite negb_true_iff, String.eqb_neq. split.
    + intros Hne. eauto.
    + intros (t & [= <-] & Hne). assumption.
  - split; [discriminate|]. intros (t & Habs & _). discriminate.
Qed.

Lemma datasourceExists_exactlyOne (props : YoutubeProps) :
  datasourceExists props = true <-> exactlyOneSupplied props.
Proof.
  unfold datasourceExists, exactlyOneSupplied.
  rewrite <- !supplied_truthy.
  destruct (truthy (videoid props)), (truthy (liveChannelid props)); simpl;
    intuition congruence.
Qed.

Lemma includes_query_getEmbedUrl (credentials videoid liveChannelid : option string) :
  includes "?" (getEmbedUrl credentials videoid liveChannelid) = true.
Proof.
  unfold getEmbedUrl. rewrite !includes_app.
  destruct (truthy videoid); rewrite !includes_app; cbn [includes];
    rewrite ?Ascii.eqb_refl, ?orb_true_r; reflexivity.
Qed.

Lemma pairText_clean (p : string * string) : includes "&" (pairText p) = false.
Proof.
  unfold pairText. rewrite !includes_app.
  destruct (encodeURIComponent_separators (fst p)) as (-> & _).
  destruct (encodeURIComponent_separators (snd p)) as (-> & _).
  reflexivity.
Qed.

Lemma pairText_split (p : string * string) :
  (beforeFirst "=" (pairText p), afterFirst "=" (pairText p)) = escapedPair p.
Proof.
  unfold pairText, escapedPair.
  destruct (encodeURIComponent_separators (fst p)) as (_ & Hk & _).
  change ("=" ++ encodeURIComponent (snd p)) with (String "=" (encodeURIComponent (snd p))).
  now rewrite beforeFirst_app, afterFirst_app.
Qed.

Lemma serializeQueryString_pieces (p : string * string) (ps : list (string * string)) :
  exists c rest,
    serializeQueryString (p :: ps) = String c rest
    /\ splitOn "&" (String c rest) = map pairText (p :: ps).
Proof.
  assert (Hsplit : splitOn "&" (serializeQueryString (p :: ps)) = map pairText (p :: ps)).
  { unfold serializeQueryString. fold pairText.
    change (map (fun q => encodeURIComponent (fst q) ++ "=" ++ encodeURIComponent (snd q)))
      with (map pairText).
    cbn [map]. apply splitOn_concat. rewrite <- map_cons.
    apply Forall_map, Forall_forall. intros q _. apply pairText_clean. }
  destruct (serializeQueryString (p :: ps)) as [|c rest] eqn:E.
  - exfalso.
    assert (Hin : includes "=" (serializeQueryString (p :: ps)) = true).
    { unfold serializeQueryString. cbn [map String.concat].
      destruct (map _ ps); rewrite !includes_app; cbn [includes];
        rewrite Ascii.eqb_refl, ?orb_true_r; reflexivity. }
    rewrite E in Hin. discriminate.
  - eauto.
Qed.

Lemma queryParameters_embed (credentials videoid liveChannelid : option string)
    (p : string * string) (ps : list (string * string)) :
  queryParameters
    (addParamsToUrl (getEmbedUrl credentials videoid liveChannelid) (p :: ps))
  = (fixedParameters videoid liveChannelid ++ map escapedPair (p :: ps))%list.
Proof.
  unfold addParamsToUrl.
  destruct (serializeQueryString_pieces p ps) as (c & rest & -> & Hsplit).
  rewrite includes_query_getEmbedUrl.
  assert (Hmap : map (fun piece => (beforeFirst "=" piece, afterFirst "=" piece))
                   (splitOn "&" (String c rest)) = map escapedPair (p :: ps)).
  { rewrite Hsplit, map_map. apply map_ext. intros q. apply pairText_split. }
  revert Hmap. generalize (String c rest) as query. intros query Hmap.
  unfold getEmbedUrl, fixedParameters, queryParameters.
  set (base := "https://www.youtube" ++ _ ++ ".com/embed/").
  assert (Hbase : includes "?" base = false).
  { subst base. destruct credentials as [cr|]; [destruct (cr =? "omit")|]; reflexivity. }
  destruct (truthy videoid).
  - destruct (encodeURIComponent_separators (orEmpty videoid)) as (_ & _ & Hid).
    replace ((base ++ (encodeURIComponent (orEmpty videoid) ++ "?") ++ "enablejsapi=1&amp=1")
             ++ "&" ++ query)
      with ((base ++ encodeURIComponent (orEmpty videoid))
            ++ String "?" ("enablejsapi=1" ++ String "&" ("amp=1" ++ String "&" query)))
      by (rewrite !append_assoc; reflexivity).
    rewrite afterFirst_app by (now rewrite includes_app, Hbase, Hid).
    simpl. now rewrite Hmap.
  - destruct (encodeURIComponent_separators (orEmpty liveChannelid)) as (Hamp & Heq & _).
    replace ((base ++ ("live_stream?channel=" ++ encodeURIComponent (orEmpty liveChannelid) ++ "&")
                   ++ "enablejsapi=1&amp=1") ++ "&" ++ query)
      with ((base ++ "live_stream")
            ++ String "?" (("channel=" ++ encodeURIComponent (orEmpty liveChannelid))
                           ++ String "&" ("enablejsapi=1" ++ String "&"
                                            ("amp=1" ++ String "&" query))))
      by (rewrite !append_assoc; reflexivity).
    rewrite afterFirst_app by (now rewrite includes_app, Hbase).
    set (channel := "channel=" ++ encodeURIComponent (orEmpty liveChannelid)).
    assert (Hch : includes "&" channel = false)
      by (subst channel; now rewrite includes_app, Hamp).
    assert (Hne : exists c0 r0, channel ++ String "&" ("enablejsapi=1" ++ String "&"
                                            ("amp=1" ++ String "&" query)) = String c0 r0)
      by (subst channel; simpl; eauto).
    destruct Hne as (c0 & r0 & Hne).
    rewrite Hne, <- Hne. rewrite splitOn_app by assumption.
    assert (Hpair : (beforeFirst "=" channel, afterFirst "=" channel)
                    = ("channel", encodeURIComponent (orEmpty liveChannelid))).
    { subst channel.
      change ("channel=" ++ encodeURIComponent (orEmpty liveChannelid))
        with ("channel" ++ String "=" (encodeURIComponent (orEmpty liveChannelid))).
      now rewrite beforeFirst_app, afterFirst_app by reflexivity. }
    cbn [map app]. rewrite Hpair. simpl. now rewrite Hmap.
Qed.


(** The parameters of the URL of a render. *)
Lemma queryParameters_render (props : YoutubeProps) :
  queryParameters
    (addParamsToUrl
       (getEmbedUrl (credentials props) (videoid props) (liveChannelid props))
       (embedParameters props))
  = (fixedParameters (videoid props) (liveChannelid props)
     ++ map escapedPair (embedParameters props))%list.
Proof.
  pose proof (embedParameters_playsinline props) as Hp.
  destruct (embedParameters props) as [|p ps]; [discriminate|].
  apply queryParameters_embed.
Qed.

Lemma In_fixedParameters (k v : string) (videoid liveChannelid : option string) :
  In (k, v) (fixedParameters videoid liveChannelid) ->
  k = "channel" \/ k = "enablejsapi" \/ k = "amp".
Proof.
  unfold fixedParameters. destruct (truthy videoid); simpl; intuition congruence.
Qed.

Lemma In_query_plain (k v : string) (fixed : list (string * string))
    (ps : list (string * string)) :
  encodeURIComponent k = k -> encodeURIComponent v = v ->
  In (k, v) ps -> In (k, v) (fixed ++ map escapedPair ps).
Proof.
  intros Hk Hv Hin. apply in_or_app. right.
  apply in_map_iff. exists (k, v). unfold escapedPair. cbn [fst snd].
  now rewrite Hk, Hv.
Qed.

Lemma In_query_source (k v : string) (videoid liveChannelid : option string)
    (ps : list (string * string)) :
  includes "%" k = false ->
  k <> "channel" -> k <> "enablejsapi" -> k <> "amp" ->
  In (k, v) (fixedParameters videoid liveChannelid ++ map escapedPair ps) ->
  exists v', In (k, v') ps /\ v = encodeURIComponent v'.
Proof.
  intros Hplain K1 K2 K3 Hin. apply in_app_or in Hin as [Hin|Hin].
  - apply In_fixedParameters in Hin. tauto.
  - apply in_map_iff in Hin as ([k' v'] & Heq & Hin).
    unfold escapedPair in Heq. cbn [fst snd] in Heq. injection Heq as Hk Hv.
    apply encodeURIComponent_plain in Hk; [|assumption]. subst k'. eauto.
Qed.

Section Rendering.
Context `{Host}.

(** The render follows the parameter rules in closed form. *)
Lemma YoutubeWithRef_renders (props : YoutubeProps) (ref : option object) :
  YoutubeWithRef props ref
  = if datasourceExists props
    then Normal
           {| wrapper_autoplay := autoplayFlag props;
              wrapper_src :=
                addParamsToUrl
                  (getEmbedUrl (credentials props) (videoid props) (liveChannelid props))
                  (embedParameters props);
              wrapper_onMessage := onMessage (loopFlag props);
              wrapper_onIframeLoad := onIframeLoad;
              wrapper_sandbox := "allow-scripts allow-same-origin allow-presentation";
              wrapper_playerStateRef :=
                match ref with Some current => current | None => createDefaultInfo end |}
    else Abrupt (Error "Exactly one of data-videoid or data-live-channelid should be present for <amp-youtube>").
Proof.
  unfold YoutubeWithRef. fold (paramsOf props) (datasourceExists props).
  destruct (datasourceExists props); [|reflexivity]. cbn [negb].
  unfold embedParameters, withLoop, withAutoplay, withPlaysinline, autoplayFlag, loopFlag.
  set (ps := paramsOf props).
  replace (if negb (has "playsinline" ps) then set "playsinline" "1" ps else ps)
    with (if has "playsinline" ps then ps else set "playsinline" "1" ps)
    by now destruct (has "playsinline" ps).
  set (p1 := if has "playsinline" ps then ps else set "playsinline" "1" ps).
  assert (Ha : has "autoplay" p1 = has "autoplay" ps).
  { subst p1. destruct (has "playsinline" ps); [reflexivity|].
    now apply has_set_other. }
  assert (Hp2 : (if has "autoplay" ps then delete "autoplay" p1 else p1)
                = delete "autoplay" p1).
  { destruct (has "autoplay" ps) eqn:E; [reflexivity|].
    symmetry. apply delete_absent. congruence. }
  rewrite Ha.
  replace (if has "autoplay" ps then (true, delete "autoplay" p1) else (autoplay props, p1))
    with (autoplay props || has "autoplay" ps, delete "autoplay" p1)
    by (rewrite <- Hp2; destruct (has "autoplay" ps), (autoplay props); reflexivity).
  cbn beta iota zeta.
  set (p2 := delete "autoplay" p1). set (a := autoplay props || has "autoplay" ps).
  change (numberToString PlayerFlags.HIDE_ANNOTATION) with "3".
  replace (if negb (has "iv_load_policy" p2) then set "iv_load_policy" "3" p2 else p2)
    with (if has "iv_load_policy" p2 then p2 else set "iv_load_policy" "3" p2)
    by now destruct (has "iv_load_policy" p2).
  set (p3 := if a then set "playsinline" "1" _ else p2).
  assert (Hl : has "loop" p3 = has "loop" ps).
  { assert (Hl2 : has "loop" p2 = has "loop" ps).
    { subst p2. rewrite has_delete_other by discriminate.
      subst p1. destruct (has "playsinline" ps); [reflexivity|].
      now apply has_set_other. }
    subst p3. destruct a; [|assumption].
    rewrite has_set_other by discriminate.
    destruct (has "iv_load_policy" p2); [assumption|].
    now rewrite has_set_other by discriminate. }
  assert (Hp4 : (if has "loop" ps then delete "loop" p3 else p3) = delete "loop" p3).
  { destruct (has "loop" ps) eqn:E; [reflexivity|].
    symmetry. apply delete_absent. congruence. }
  rewrite Hl.
  replace (if has "loop" ps then (true, delete "loop" p3) else (loop props, p3))
    with (loop props || has "loop" ps, delete "loop" p3)
    by (rewrite <- Hp4; destruct (has "loop" ps), (loop props); reflexivity).
  cbn beta iota zeta.
  rewrite has_delete_same.
  do 2 f_equal.
  destruct (loop props || has "loop" ps), (has "playlist" (delete "loop" p3)); reflexivity.
Qed.

Lemma render_src (props : YoutubeProps) (ref : option object) (r : VideoWrapper) :
  YoutubeWithRef props ref = Normal r ->
  wrapper_autoplay r = autoplayFlag props
  /\ wrapper_onMessage r = onMessage (loopFlag props)
  /\ queryParameters (wrapper_src r)
     = (fixedParameters (videoid props) (liveChannelid props)
        ++ map escapedPair (embedParameters props))%list.
Proof.
  rewrite YoutubeWithRef_renders. destruct (datasourceExists props); [|discriminate].
  intros [= <-]. cbn [wrapper_autoplay wrapper_onMessage wrapper_src].
  repeat split. apply queryParameters_render.
Qed.

(** The text of the URL of a render: the domain, the escaped
    identifier, the two fixed parameters and the serialized mapping. *)
Lemma embed_url_text (props : YoutubeProps) :
  datasourceExists props = true ->
  exists id,
    id <> ""
    /\ (videoid props = Some id
        /\ addParamsToUrl
             (getEmbedUrl (credentials props) (videoid props) (liveChannelid props))
             (embedParameters props)
           = (if omitsCredentials props
              then "https://www.youtube-nocookie.com/embed/"
              else "https://www.youtube.com/embed/")
             ++ encodeURIComponent id ++ "?enablejsapi=1&amp=1&"
             ++ serializeQueryString (embedParameters props)
        \/ liveChannelid props = Some id
           /\ addParamsToUrl
                (getEmbedUrl (credentials props) (videoid props) (liveChannelid props))
                (embedParameters props)
              = (if omitsCredentials props
                 then "https://www.youtube-nocookie.com/embed/"
                 else "https://www.youtube.com/embed/")
                ++ "live_stream?channel=" ++ encodeURIComponent id
                ++ "&enablejsapi=1&amp=1&"
                ++ serializeQueryString (embedParameters props)).
Proof.
  intros Hd.
  assert (Hurl : addParamsToUrl
             (getEmbedUrl (credentials props) (videoid props) (liveChannelid props))
             (embedParameters props)
           = getEmbedUrl (credentials props) (videoid props) (liveChannelid props)
             ++ "&" ++ serializeQueryString (embedParameters props)).
  { pose proof (embedParameters_playsinline props) as Hp.
    unfold addParamsToUrl. destruct (embedParameters props) as [|p ps]; [discriminate|].
    destruct (serializeQueryString_pieces p ps) as (c & rest & -> & _).
    now rewrite includes_query_getEmbedUrl. }
  rewrite Hurl. clear Hurl.
  unfold datasourceExists in Hd. unfold getEmbedUrl, omitsCredentials.
  set (q := serializeQueryString (embedParameters props)).
  destruct (videoid props) as [v|] eqn:Ev; cbn [truthy orEmpty] in *.
  - destruct (negb (v =? "")) eqn:Hv.
    + exists v. split.
      * apply negb_true_iff, String.eqb_neq in Hv. assumption.
      * left. split; [reflexivity|].
        destruct (credentials props) as [mode|]; [destruct (mode =? "omit")|];
          cbn [append]; rewrite ?append_assoc; reflexivity.
    + destruct (liveChannelid props) as [l|]; [|discriminate].
      cbn [andb negb orb] in Hd. exists l. split.
      * apply negb_true_iff, String.eqb_neq in Hd. assumption.
      * right. split; [reflexivity|].
        destruct (credentials props) as [mode|]; [destruct (mode =? "omit")|];
          cbn [append]; rewrite ?append_assoc; reflexivity.
  - destruct (liveChannelid props) as [l|]; [|discriminate].
    cbn [andb negb orb] in Hd. exists l. split.
    + apply negb_true_iff, String.eqb_neq in Hd. assumption.
    + right. split; [reflexivity|].
      destruct (credentials props) as [mode|]; [destruct (mode =? "omit")|];
        cbn [append]; rewrite ?append_assoc; reflexivity.
Qed.

(** C1: a render succeeds, with a URL built for the identifier, when
    exactly one of the video id and the live-channel id is supplied,
    and only then; when both or neither are supplied it throws the
    configuration error and yields no URL.  The URL of a render is the
    embed address on the domain the credentials choose, with the
    supplied identifier escaped, followed by the parameters. *)
Theorem C1_exactly_one_identifier (props : YoutubeProps) (ref : option object) :
  ((exists r, YoutubeWithRef props ref = Normal r) <-> exactlyOneSupplied props)
  /\ (YoutubeWithRef props ref
      = Abrupt (Error "Exactly one of data-videoid or data-live-channelid should be present for <amp-youtube>")
      <-> ~ exactlyOneSupplied props)
  /\ (forall r, YoutubeWithRef props ref = Normal r ->
      wrapper_src r
      = addParamsToUrl
          (getEmbedUrl (credentials props) (videoid props) (liveChannelid props))
          (embedParameters props))
  /\ (forall r, YoutubeWithRef props ref = Normal r ->
      exists id,
        id <> ""
        /\ (videoid props = Some id
            /\ wrapper_src r
               = (if omitsCredentials props
                  then "https://www.youtube-nocookie.com/embed/"
                  else "https://www.youtube.com/embed/")
                 ++ encodeURIComponent id ++ "?enablejsapi=1&amp=1&"
                 ++ serializeQueryString (embedParameters props)
            \/ liveChannelid props = Some id
               /\ wrapper_src r
                  = (if omitsCredentials props
                     then "https://www.youtube-nocookie.com/embed/"
                     else "https://www.youtube.com/embed/")
                    ++ "live_stream?channel=" ++ encodeURIComponent id
                    ++ "&enablejsapi=1&amp=1&"
                    ++ serializeQueryString (embedParameters props))).
Proof.
  rewrite YoutubeWithRef_renders.
  pose proof (datasourceExists_exactlyOne props) as Hiff.
  pose proof (embed_url_text props) as Htext.
  destruct (datasourceExists props).
  - assert (He : exactlyOneSupplied props) by now apply Hiff.
    split; [split; [auto | eauto] |].
    split; [split; [discriminate | intros Hn; contradiction] |].
    split; [now intros r [= <-] |].
    intros r [= <-]. cbn [wrapper_src]. now apply Htext.
  - assert (He : ~ exactlyOneSupplied props)
      by (intros He; apply Hiff in He; discriminate).
    split; [split; [intros (r & Hr); discriminate | intros; contradiction] |].
    split; [split; auto |].
    split; intros r Hr; discriminate.
Qed.

(** C5: when the parameters have no [iv_load_policy] key and autoplay
    is on, as the prop or through an [autoplay] key (which is removed
    from the parameters), the URL of the render has the parameters
    [iv_load_policy=3] and [playsinline=1], and [playsinline] has no
    other value, whatever the caller gave. *)
Theorem C5_autoplay_parameters
    (props : YoutubeProps) (ref : option object) (r : VideoWrapper) :
  YoutubeWithRef props ref = Normal r ->
  has "iv_load_policy" (paramsOf props) = false ->
  autoplay props = true \/ has "autoplay" (paramsOf props) = true ->
  wrapper_autoplay r = true
  /\ In ("iv_load_policy", "3") (queryParameters (wrapper_src r))
  /\ In ("playsinline", "1") (queryParameters (wrapper_src r))
  /\ (forall v, In ("playsinline", v) (queryParameters (wrapper_src r)) -> v = "1")
  /\ ~ In "autoplay" (map fst (queryParameters (wrapper_src r))).
Proof.
  intros Hr Hiv Hauto.
  destruct (render_src props ref r Hr) as (Ha & _ & ->).
  assert (Hflag : autoplayFlag props = true).
  { unfold autoplayFlag. destruct Hauto as [-> | ->]; auto using orb_true_r. }
  destruct (embedParameters_autoplay props Hflag Hiv) as (I1 & I2 & I3).
  split; [congruence|]. repeat split.
  - now apply In_query_plain.
  - now apply In_query_plain.
  - intros v Hin. apply In_query_source in Hin as (v' & Hin & ->);
      [|reflexivity|discriminate..].
    now rewrite (I3 v' Hin).
  - intros Hin. apply in_map_iff in Hin as ([k v] & Hk & Hin). cbn [fst] in Hk. subst k.
    apply In_query_source in Hin as (v' & Hin & _); [|reflexivity|discriminate..].
    assert (has "autoplay" (embedParameters props) = true) by (apply has_In; eauto).
    pose proof (embedParameters_no_autoplay props). congruence.
Qed.

(** C6: when looping is on, as the prop or through a [loop] key (which
    is removed from the parameters), the handler of the render loops,
    and the URL has the parameter [loop=1] if the parameters have a
    [playlist] key and no [loop] parameter at all if they have none. *)
Theorem C6_loop_parameter
    (props : YoutubeProps) (ref : option object) (r : VideoWrapper) :
  YoutubeWithRef props ref = Normal r ->
  loop props = true \/ has "loop" (paramsOf props) = true ->
  wrapper_onMessage r = onMessage true
  /\ (has "playlist" (paramsOf props) = true ->
      In ("loop", "1") (queryParameters (wrapper_src r)))
  /\ (has "playlist" (paramsOf props) = false ->
      ~ In "loop" (map fst (queryParameters (wrapper_src r)))).
Proof.
  intros Hr Hloop.
  destruct (render_src props ref r Hr) as (_ & Hm & ->).
  assert (Hflag : loopFlag props = true).
  { unfold loopFlag. destruct Hloop as [-> | ->]; auto using orb_true_r. }
  pose proof (embedParameters_loop props) as Hl. rewrite Hflag in Hl.
  split; [congruence|]. split; intros Hpl; rewrite Hpl in Hl; cbn [andb] in Hl.
  - now apply In_query_plain.
  - intros Hin. apply in_map_iff in Hin as ([k v] & Hk & Hin). cbn [fst] in Hk. subst k.
    apply In_query_source in Hin as (v' & Hin & _); [|reflexivity|discriminate..].
    assert (has "loop" (embedParameters props) = true) by (apply has_In; eauto).
    congruence.
Qed.
End Rendering.

(** ** The properties at sample inputs *)

Lemma C2_ended_restarts_when_looping_witness :
  fst (onMessage (H := sampleHost) true
         (message 3 "infoDelivery" [("playerState", JNum (Int 0))]) firstRender)
  = Normal tt
  /\ performs
       (onMessage (H := sampleHost) true
          (message 3 "infoDelivery" [("playerState", JNum (Int 0))]))
       firstRender
       [playCommand (H := sampleHost) 3; videoEvent 3 (Name "ended")].
Proof.
  exact (@C2_ended_restarts_when_looping sampleHost true
           (message 3 "infoDelivery" [("playerState", JNum (Int 0))]) firstRender
           eq_refl eq_refl).
Defined.

Lemma C5_autoplay_parameters_witness :
  exists r,
    YoutubeWithRef (H := sampleHost) autoplayByParameter None = Normal r
    /\ wrapper_src r
       = "https://www.youtube.com/embed/dQw4w9WgXcQ?enablejsapi=1&amp=1&playsinline=1&iv_load_policy=3"
    /\ wrapper_autoplay r = true
    /\ In ("iv_load_policy", "3") (queryParameters (wrapper_src r))
    /\ In ("playsinline", "1") (queryParameters (wrapper_src r))
    /\ (forall v, In ("playsinline", v) (queryParameters (wrapper_src r)) -> v = "1")
    /\ ~ In "autoplay" (map fst (queryParameters (wrapper_src r))).
Proof.
  eexists. split; [reflexivity|]. split; [reflexivity|].
  exact (@C5_autoplay_parameters sampleHost autoplayByParameter None _
           eq_refl eq_refl (or_intror eq_refl)).
Defined.

Lemma C6_loop_parameter_witness :
  (exists r,
      YoutubeWithRef (H := sampleHost) loopWithPlaylist None = Normal r
      /\ wrapper_src r
         = "https://www.youtube-nocookie.com/embed/live_stream?channel=UC%20b%2F1&enablejsapi=1&amp=1&playlist=a%2Cb&playsinline=1&loop=1"
      /\ In ("loop", "1") (queryParameters (wrapper_src r)))
  /\ (exists r,
         YoutubeWithRef (H := sampleHost) loopWithoutPlaylist None = Normal r
         /\ wrapper_src r
            = "https://www.youtube.com/embed/dQw4w9WgXcQ?enablejsapi=1&amp=1&playsinline=1"
         /\ ~ In "loop" (map fst (queryParameters (wrapper_src r)))).
Proof.
  split; eexists; (split; [reflexivity|]); (split; [reflexivity|]).
  - exact (proj1 (proj2 (@C6_loop_parameter sampleHost loopWithPlaylist None _
                           eq_refl (or_introl eq_refl)))
             eq_refl).
  - exact (proj2 (proj2 (@C6_loop_parameter sampleHost loopWithoutPlaylist None _
                           eq_refl (or_intror eq_refl)))
             eq_refl).
Defined.

Lemma C7_merge_overwrites_supplied_fields_witness :
  playerStateRef_current
    (snd (onMessage (H := sampleHost) false (textMessage 3 sampleInfoDeliveryText) firstRender))
  = [("currentTime", JNum (Int 12)); ("duration", JNum NaN)].
Proof.
  exact (@C7_merge_overwrites_supplied_fields sampleHost false
           (textMessage 3 sampleInfoDeliveryText) firstRender (JNum (Int 0)) (JNum NaN)
           eq_refl eq_refl).
Defined.

Lemma C8_unparsable_payload_ignored_witness :
  onMessage (H := sampleHost) true (textMessage 3 "{not json") firstRender
  = (Normal tt, firstRender).
Proof.
  exact (@C8_unparsable_payload_ignored sampleHost true
           (textMessage 3 "{not json") firstRender eq_refl eq_refl).
Defined.

(** * Further properties *)

(** ** The message handler, message by message *)

Section HandlerRuns.
Context `{Host}.

Lemma onMessage_record (loop : bool) (e : Event) (w : world) :
  playerStateRef_current (snd (onMessage loop e w))
  = if reachesMerge e
    then mergeInfo (infoOf e) (playerStateRef_current w)
    else playerStateRef_current w.
Proof.
  unfold reachesMerge.
  destruct (ToBoolean (parsedDataOf e)) eqn:Hp; cbn [andb].
  2:{ now rewrite onMessage_unparsed. }
  destruct (looseEqualsText (eventOf e) "initialDelivery") as [[|]|] eqn:E1.
  - apply looseEqualsText_true in E1; [|discriminate].
    now rewrite onMessage_initialDelivery.
  - rewrite onMessage_merges by assumption.
    destruct (ToBoolean (infoOf e)) eqn:Hi; [reflexivity|].
    apply mergeInfo_primitive. now apply falsy_not_object.
  - run_handler. fold (parsedDataOf e) (eventOf e). now rewrite Hp, E1.
Qed.

(** The actions of one run, in their order: the metadata event alone,
    or up to three actions, the restart command, the state event and
    the mute event. *)
Lemma onMessage_sequence (loop : bool) (e : Event) (w : world) :
  exists actions,
    performs (onMessage loop e) w actions
    /\ (actions = [videoEvent (currentTarget e) (Name VideoEvents.LOADEDMETADATA)]
        \/ exists restart state mute,
             actions = (restart ++ state ++ mute)%list
             /\ (restart = []
                 \/ restart = [playCommand (currentTarget e)] /\ loop = true)
             /\ (state = []
                 \/ exists key, state = [videoEvent (currentTarget e)
                                           (readTable PlayerStates key)])
             /\ (mute = []
                 \/ mute = [videoEvent (currentTarget e) (Name VideoEvents.MUTED)])).
Proof.
  assert (Hnone : forall m, trace (snd (m w)) = trace w ->
            exists actions, performs m w actions
              /\ (actions = [videoEvent (currentTarget e) (Name VideoEvents.LOADEDMETADATA)]
                  \/ exists restart state mute,
                       actions = (restart ++ state ++ mute)%list
                       /\ (restart = []
                           \/ restart = [playCommand (currentTarget e)] /\ loop = true)
                       /\ (state = []
                           \/ exists key, state = [videoEvent (currentTarget e)
                                                     (readTable PlayerStates key)])
                       /\ (mute = []
                           \/ mute = [videoEvent (currentTarget e)
                                        (Name VideoEvents.MUTED)]))).
  { intros m Hm. exists []. split; [now apply performs_nil|].
    right. exists [], [], []. auto. }
  destruct (ToBoolean (parsedDataOf e)) eqn:Hp.
  2:{ apply Hnone. now rewrite onMessage_unparsed. }
  destruct (looseEqualsText (eventOf e) "initialDelivery") as [[|]|] eqn:E1.
  - apply looseEqualsText_true in E1; [|discriminate].
    eexists. split; [|left; reflexivity].
    unfold performs. now rewrite onMessage_initialDelivery.
  - destruct (ToBoolean (infoOf e)) eqn:Hi.
    2:{ apply Hnone. run_handler. fold (parsedDataOf e) (eventOf e) (infoOf e).
        now rewrite Hp, E1, Hi. }
    destruct (looseEqualsText (eventOf e) "infoDelivery") as [[|]|] eqn:E2.
    2,3: apply Hnone; run_handler; fold (parsedDataOf e) (eventOf e) (infoOf e);
      now rewrite Hp, E1, Hi, E2.
    clear Hnone. unfold performs. run_handler.
    fold (parsedDataOf e) (eventOf e) (infoOf e).
    rewrite Hp, E1, Hi, E2. cbn [negb]. unfold mutedOrUnmutedEvent.
    destruct (looseEqualsZero (Get (infoOf e) "playerState")) as [[|]|];
      [destruct loop| |];
      (destruct (notNullish (Get (infoOf e) "playerState"));
       [destruct (toString (Get (infoOf e) "playerState")) as [key|]|]);
      destruct (ToBoolean (Get (infoOf e) "muted"));
      cbn [fst snd trace playerStateRef_current];
      rewrite <- ?app_assoc;
      (eexists; split;
       [ first [reflexivity | symmetry; apply app_nil_r]
       | right ]).
    all: first
      [ exists [], [], []; split; [reflexivity|]
      | exists [], [], [videoEvent (currentTarget e) (Name VideoEvents.MUTED)];
        split; [reflexivity|]
      | exists [], [videoEvent (currentTarget e) (readTable PlayerStates key)], [];
        split; [reflexivity|]
      | exists [], [videoEvent (currentTarget e) (readTable PlayerStates key)],
          [videoEvent (currentTarget e) (Name VideoEvents.MUTED)];
        split; [reflexivity|]
      | exists [playCommand (currentTarget e)], [], []; split; [reflexivity|]
      | exists [playCommand (currentTarget e)], [],
          [videoEvent (currentTarget e) (Name VideoEvents.MUTED)];
        split; [reflexivity|]
      | exists [playCommand (currentTarget e)],
          [videoEvent (currentTarget e) (readTable PlayerStates key)], [];
        split; [reflexivity|]
      | exists [playCommand (currentTarget e)],
          [videoEvent (currentTarget e) (readTable PlayerStates key)],
          [videoEvent (currentTarget e) (Name VideoEvents.MUTED)];
        split; [reflexivity|] ];
      (split; [|split]);
      first [ left; reflexivity | right; split; reflexivity
            | right; eexists; reflexivity | right; reflexivity ].
  - apply Hnone. run_handler. fold (parsedDataOf e) (eventOf e). now rewrite Hp, E1.
Qed.



(** X9: an initial delivery makes the handler dispatch the metadata
    event and nothing else; the player-state record stays as it was,
    whatever info the message carries. *)
Theorem initial_delivery_only_announces_metadata (loop : bool) (e : Event) (w : world) :
  eventOf e = JStr "initialDelivery" ->
  onMessage loop e w
  = (Normal tt,
     {| playerStateRef_current := playerStateRef_current w;
        trace := trace w ++ [videoEvent (currentTarget e)
                               (Name VideoEvents.LOADEDMETADATA)] |}).
Proof. apply onMessage_initialDelivery. Qed.

(** X10: a message that is no initial delivery and has no info, or a
    falsy one, is ignored: no event, no message, the record unchanged. *)
Theorem message_without_info_is_ignored (loop : bool) (e : Event) (w : world) :
  isObject (eventOf e) = false ->
  eventOf e <> JStr "initialDelivery" ->
  ToBoolean (infoOf e) = false ->
  onMessage loop e w = (Normal tt, w).
Proof.
  intros Ho Hne Hi.
  destruct (ToBoolean (parsedDataOf e)) eqn:Hp; [|now apply onMessage_unparsed].
  assert (E1 : looseEqualsText (eventOf e) "initialDelivery" = Normal false).
  { destruct (eventOf e) eqn:Ev; try reflexivity; [|discriminate].
    cbn [looseEqualsText]. destruct (s =? "initialDelivery") eqn:Es; [|reflexivity].
    apply String.eqb_eq in Es. congruence. }
  run_handler. fold (parsedDataOf e) (eventOf e) (infoOf e).
  now rewrite Hp, E1, Hi.
Qed.

(** X11: whatever the message, and also when the handler throws, the
    player-state record keeps its keys, in their order. *)
Theorem handler_keeps_record_keys (loop : bool) (e : Event) (w : world) :
  map fst (playerStateRef_current (snd (onMessage loop e w)))
  = map fst (playerStateRef_current w).
Proof.
  rewrite onMessage_record. destruct (reachesMerge e); [|reflexivity].
  apply mergeInfo_keys.
Qed.

Lemma mergeInfo_idempotent (parsedInfo : value) (info : object) :
  mergeInfo parsedInfo (mergeInfo parsedInfo info) = mergeInfo parsedInfo info.
Proof.
  unfold mergeInfo. rewrite map_map. apply map_ext. intros [k v]. cbn [fst].
  destruct (notNullish (Get parsedInfo k)) eqn:E; cbn [fst]; now rewrite E.
Qed.

(** X12: the same message delivered a second time leaves the
    player-state record as the first delivery left it. *)
Theorem repeated_message_changes_nothing_more (loop : bool) (e : Event) (w : world) :
  playerStateRef_current (snd (onMessage loop e (snd (onMessage loop e w))))
  = playerStateRef_current (snd (onMessage loop e w)).
Proof.
  rewrite !onMessage_record. destruct (reachesMerge e); [|reflexivity].
  apply mergeInfo_idempotent.
Qed.

(** X13: after two info deliveries each field of the record holds the
    value of the later payload that gives one (neither null nor
    undefined), and its old value when neither does. *)
Theorem later_delivery_wins_per_field
    (loop : bool) (e1 e2 : Event) (w : world) (position duration : value) :
  eventOf e1 = JStr "infoDelivery" ->
  eventOf e2 = JStr "infoDelivery" ->
  playerStateRef_current w = [("currentTime", position); ("duration", duration)] ->
  let latest k old :=
    if notNullish (Get (infoOf e2) k) then Get (infoOf e2) k
    else if notNullish (Get (infoOf e1) k) then Get (infoOf e1) k
    else old in
  playerStateRef_current (snd (onMessage loop e2 (snd (onMessage loop e1 w))))
  = [("currentTime", latest "currentTime" position);
     ("duration", latest "duration" duration)].
Proof.
  intros H1 H2 Hw latest. subst latest.
  rewrite !onMessage_merges by (now rewrite ?H1, ?H2). rewrite Hw.
  unfold mergeInfo. cbn [map fst].
  destruct (notNullish (Get (infoOf e1) "currentTime")),
           (notNullish (Get (infoOf e1) "duration")); cbn [fst];
    destruct (notNullish (Get (infoOf e2) "currentTime")),
             (notNullish (Get (infoOf e2) "duration")); reflexivity.
Qed.

(** X14: one run of the handler takes the metadata event alone, or at
    most three actions in this order: the restart command (only when
    looping), one state event, the muted event. *)
Theorem handler_acts_in_fixed_order (loop : bool) (e : Event) (w : world) :
  exists actions,
    performs (onMessage loop e) w actions
    /\ (actions = [videoEvent (currentTarget e) (Name VideoEvents.LOADEDMETADATA)]
        \/ exists restart state mute,
             actions = (restart ++ state ++ mute)%list
             /\ (restart = []
                 \/ restart = [playCommand (currentTarget e)] /\ loop = true)
             /\ (state = []
                 \/ exists key, state = [videoEvent (currentTarget e)
                                           (readTable PlayerStates key)])
             /\ (mute = []
                 \/ mute = [videoEvent (currentTarget e) (Name VideoEvents.MUTED)])).
Proof. apply onMessage_sequence. Qed.

(** X15: the handler posts at most one message per run, the play
    command, and none at all when looping is off. *)
Theorem handler_posts_only_the_restart (loop : bool) (e : Event) (w : world) :
  exists actions,
    performs (onMessage loop e) w actions
    /\ (filter isPostMessage actions = []
        \/ loop = true
           /\ filter isPostMessage actions = [playCommand (currentTarget e)]).
Proof.
  destruct (onMessage_sequence loop e w)
    as (actions & Hrun & [-> | (r & s & m & -> & Hr & Hs & Hm)]);
    eexists; (split; [eassumption|]).
  - left. reflexivity.
  - rewrite !filter_app.
    assert (Es : filter isPostMessage s = [])
      by (destruct Hs as [-> | [key ->]]; reflexivity).
    assert (Em : filter isPostMessage m = []) by (destruct Hm as [-> | ->]; reflexivity).
    rewrite Es, Em, !app_nil_r.
    destruct Hr as [-> | [-> Hl]]; [left | right]; auto.
Qed.

(** X16: every action of the handler is on the iframe of the message:
    its events have no detail, do not bubble and cannot be cancelled,
    its messages go to that content window for any origin. *)
Theorem handler_acts_on_its_frame (loop : bool) (e : Event) (w : world) :
  exists actions,
    performs (onMessage loop e) w actions
    /\ Forall (onFrame (currentTarget e)) actions.
Proof.
  destruct (onMessage_actions loop e w) as (actions & Hrun & Hall).
  exists actions. split; [assumption|].
  eapply Forall_impl; [|exact Hall].
  intros a Ha. destruct Ha; cbn; auto.
Qed.











(** X19: for each of the six codes of the table an info delivery
    dispatches the event the table names for it, and besides it only
    the muted event, when the [muted] field is truthy. *)
Theorem known_code_names_its_event (loop : bool) (e : Event) (w : world) (code : Z) :
  eventOf e = JStr "infoDelivery" ->
  Get (infoOf e) "playerState" = JNum (Int code) ->
  In code knownCodes ->
  exists name actions,
    In (numberToString (Int code), name) PlayerStates
    /\ performs (onMessage loop e) w actions
    /\ dispatchedNames actions
       = Name name :: (if ToBoolean (Get (infoOf e) "muted")
                       then [Name VideoEvents.MUTED] else []).
Proof.
  intros Hev Hps Hin.
  assert (Hname : exists name,
             In (numberToString (Int code), name) PlayerStates
             /\ readTable PlayerStates (numberToString (Int code)) = Name name).
  { simpl in Hin.
    destruct Hin as [<-|[<-|[<-|[<-|[<-|[<-|[]]]]]]];
      eexists; (split; [|reflexivity]); simpl; tauto. }
  destruct Hname as (name & Hin' & Hread).
  exists name. eexists. split; [assumption|]. split.
  - unfold performs. rewrite (onMessage_code loop e w code Hev Hps). reflexivity.
  - rewrite Hread. unfold dispatchedNames. rewrite !flat_map_app.
    destruct ((code =? 0)%Z && loop), (ToBoolean (Get (infoOf e) "muted")); reflexivity.
Qed.

(** X20: the message the handler posts to restart a looping video is
    the message [makeMethodMessage] builds for the [play] method, and
    it is the only message of the run. *)
Theorem restart_sends_the_play_method (e : Event) (w : world) :
  eventOf e = JStr "infoDelivery" ->
  Get (infoOf e) "playerState" = JNum (Int 0) ->
  exists rest,
    performs (onMessage true e) w
      (postMessage (currentTarget e) (makeMethodMessage "play") "*" :: rest)
    /\ filter isPostMessage rest = [].
Proof.
  intros Hev Hps. eexists. split.
  - unfold performs. rewrite (onMessage_code true e w 0 Hev Hps). reflexivity.
  - cbn. now destruct (ToBoolean (Get (infoOf e) "muted")).
Qed.

(** X21: a method name that the table lacks (and that names no
    inherited member) yields the command with [func] undefined, so two
    such names yield the same message. *)
Theorem unmapped_methods_send_the_same_message (method other : string) :
  lookup method methods = None ->
  lookup other methods = None ->
  existsb (String.eqb method) ObjectPrototype = false ->
  existsb (String.eqb other) ObjectPrototype = false ->
  makeMethodMessage method
  = JSON_stringify (JObj [("event", JStr "command"); ("func", JUndefined)])
  /\ makeMethodMessage other = makeMethodMessage method.
Proof.
  intros Hm Ho Pm Po. unfold makeMethodMessage, readMethod, readTable.
  rewrite Hm, Ho, Pm, Po. split; reflexivity.
Qed.
End HandlerRuns.

(** ** The parameter rules, key by key *)

Lemma set_absent {A : Type} (k : string) (v : A) (o : list (string * A)) :
  has k o = false -> set k v o = (o ++ [(k, v)])%list.
Proof. unfold set. now intros ->. Qed.

Lemma set_settled {A : Type} (k : string) (v : A) (o : list (string * A)) :
  has k o = true -> (forall v', In (k, v') o -> v' = v) -> set k v o = o.
Proof.
  intros Hh Hv. unfold set. rewrite Hh.
  rewrite <- (map_id o) at 2. apply map_ext_in. intros [k' v'] Hin. cbn [fst].
  destruct (k' =? k) eqn:E; [|reflexivity].
  apply String.eqb_eq in E. subst k'. now rewrite (Hv v' Hin).
Qed.

Section RuleStages.
Implicit Types (ps : list (string * string)) (k v : string).

Lemma In_withPlaysinline k v ps :
  In (k, v) ps -> In (k, v) (withPlaysinline ps).
Proof.
  intros Hin. unfold withPlaysinline.
  destruct (has "playsinline" ps) eqn:E; [assumption|].
  rewrite set_absent by assumption. apply in_or_app. now left.
Qed.

Lemma In_withPlaysinline_source k v ps :
  In (k, v) (withPlaysinline ps) -> In (k, v) ps \/ (k, v) = ("playsinline", "1").
Proof.
  unfold withPlaysinline. destruct (has "playsinline" ps) eqn:E; [auto|].
  rewrite set_absent by assumption. intros Hin.
  apply in_app_or in Hin as [Hin|[Hin|[]]]; auto.
Qed.

Lemma In_withAutoplay k v flag ps :
  In (k, v) ps -> k <> "autoplay" -> (k = "playsinline" -> flag = false) ->
  In (k, v) (withAutoplay flag ps).
Proof.
  intros Hin Ka Kp. unfold withAutoplay.
  assert (Hd : In (k, v) (delete "autoplay" ps)) by (apply In_delete; auto).
  destruct flag; [|assumption].
  assert (Kp' : k <> "playsinline") by (intros ->; now specialize (Kp eq_refl)).
  apply In_set_other; [assumption|].
  destruct (has "iv_load_policy" (delete "autoplay" ps)) eqn:E; [assumption|].
  rewrite set_absent by assumption. apply in_or_app. now left.
Qed.

Lemma In_withAutoplay_source k v flag ps :
  In (k, v) (withAutoplay flag ps) ->
  In (k, v) ps \/ (k, v) = ("playsinline", "1") \/ (k, v) = ("iv_load_policy", "3").
Proof.
  unfold withAutoplay. destruct flag.
  2:{ intros Hin. apply In_delete in Hin. tauto. }
  intros Hin.
  destruct (String.eqb_spec k "playsinline") as [->|Kp].
  { apply In_set_value in Hin. subst. auto. }
  apply In_set_other in Hin; [|assumption].
  destruct (has "iv_load_policy" (delete "autoplay" ps)) eqn:E.
  - apply In_delete in Hin. tauto.
  - rewrite set_absent in Hin by assumption.
    apply in_app_or in Hin as [Hin|[Hin|[]]]; [|auto].
    apply In_delete in Hin. tauto.
Qed.

Lemma In_withLoop_source k v flag ps :
  In (k, v) (withLoop flag ps) -> In (k, v) ps /\ k <> "loop" \/ (k, v) = ("loop", "1").
Proof.
  unfold withLoop. destruct (flag && has "playlist" (delete "loop" ps)).
  - rewrite set_absent by apply has_delete_same. intros Hin.
    apply in_app_or in Hin as [Hin|[Hin|[]]]; [|auto].
    apply In_delete in Hin. auto.
  - intros Hin. apply In_delete in Hin. auto.
Qed.
End RuleStages.

Lemma embedParameters_pass (props : YoutubeProps) (k v : string) :
  In (k, v) (paramsOf props) ->
  k <> "autoplay" -> k <> "loop" ->
  (k = "playsinline" -> autoplayFlag props = false) ->
  In (k, v) (embedParameters props).
Proof.
  intros Hin Ka Kl Kp. unfold embedParameters.
  apply In_withLoop; [assumption|].
  apply In_withAutoplay; [|assumption..].
  now apply In_withPlaysinline.
Qed.

Lemma embedParameters_source (props : YoutubeProps) (k v : string) :
  In (k, v) (embedParameters props) ->
  In (k, v) (paramsOf props) /\ k <> "loop"
  \/ In (k, v) [("playsinline", "1"); ("iv_load_policy", "3"); ("loop", "1")].
Proof.
  unfold embedParameters. intros Hin.
  apply In_withLoop_source in Hin as [[Hin Kl]|Hin]; [|right; simpl; auto].
  apply In_withAutoplay_source in Hin as [Hin|[Hin|Hin]];
    [|right; simpl; auto..].
  apply In_withPlaysinline_source in Hin as [Hin|Hin]; [auto|right; simpl; auto].
Qed.

Lemma embedParameters_rerendered (props : YoutubeProps) :
  embedParameters (rerendered props) = embedParameters props.
Proof.
  set (ps' := embedParameters props).
  assert (Hpl : has "playsinline" ps' = true) by apply embedParameters_playsinline.
  assert (Hau : has "autoplay" ps' = false) by apply embedParameters_no_autoplay.
  unfold embedParameters at 1.
  unfold autoplayFlag, loopFlag, paramsOf, rerendered; cbn [params autoplay loop].
  fold ps'. rewrite Hau, orb_false_r.
  assert (E1 : withPlaysinline ps' = ps') by (unfold withPlaysinline; now rewrite Hpl).
  rewrite E1.
  assert (E2 : withAutoplay (autoplay props) ps' = ps').
  { unfold withAutoplay. rewrite (delete_absent _ _ Hau).
    destruct (autoplay props) eqn:Ea; [|reflexivity].
    assert (Hflag : autoplayFlag props = true) by (unfold autoplayFlag; now rewrite Ea).
    assert (Hiv : has "iv_load_policy" ps' = true).
    { subst ps'. unfold embedParameters. rewrite has_withLoop by discriminate.
      rewrite Hflag. unfold withAutoplay. rewrite has_set_other by discriminate.
      destruct (has "iv_load_policy"
                  (delete "autoplay" (withPlaysinline (paramsOf props)))) eqn:E;
        [assumption | apply has_set_same]. }
    rewrite Hiv. apply set_settled; [assumption|].
    intros v' Hin. subst ps'. unfold embedParameters in Hin.
    apply In_withLoop in Hin; [|discriminate]. rewrite Hflag in Hin.
    unfold withAutoplay in Hin. now apply In_set_value in Hin. }
  rewrite E2. subst ps'. unfold embedParameters.
  set (q := withAutoplay (autoplayFlag props) (withPlaysinline (paramsOf props))).
  set (dq := delete "loop" q).
  assert (Hdd : delete "loop" dq = dq) by (apply delete_absent, has_delete_same).
  assert (Er : withLoop (loopFlag props) q
               = if loopFlag props && has "playlist" dq
                 then (dq ++ [("loop", "1")])%list else dq).
  { unfold withLoop. fold dq. destruct (loopFlag props && has "playlist" dq);
      [apply set_absent, has_delete_same | reflexivity]. }
  rewrite Er. unfold withLoop.
  destruct (loopFlag props && has "playlist" dq) eqn:Ec.
  - apply andb_true_iff in Ec as [Hl Hp].
    assert (Ed : delete "loop" (dq ++ [("loop", "1")]) = dq).
    { unfold delete at 1. rewrite filter_app. fold (delete "loop" dq). rewrite Hdd.
      cbn. apply app_nil_r. }
    rewrite Ed, has_app, !orb_true_r, Hp. cbn [andb].
    apply set_absent. subst dq. apply has_delete_same.
  - rewrite Hdd. assert (Hn : has "loop" dq = false) by (subst dq; apply has_delete_same).
    rewrite Hn, orb_false_r.
    unfold loopFlag in Ec.
    destruct (loop props); [|reflexivity]. cbn [orb andb] in Ec |- *. now rewrite Ec.
Qed.

(** ** The URL of a render *)

(** X1: whatever characters the identifiers hold, the query parameters
    of the URL [getEmbedUrl] builds are [enablejsapi=1] and [amp=1],
    after [channel=<escaped id>] when there is no video id. *)
Theorem identifier_adds_no_parameter (credentials videoid liveChannelid : option string) :
  queryParameters (getEmbedUrl credentials videoid liveChannelid)
  = fixedParameters videoid liveChannelid.
Proof.
  unfold getEmbedUrl, fixedParameters, queryParameters.
  set (base := "https://www.youtube" ++ _ ++ ".com/embed/").
  assert (Hbase : includes "?" base = false).
  { subst base. destruct credentials as [cr|]; [destruct (cr =? "omit")|]; reflexivity. }
  destruct (truthy videoid).
  - destruct (encodeURIComponent_separators (orEmpty videoid)) as (_ & _ & Hid).
    replace (base ++ (encodeURIComponent (orEmpty videoid) ++ "?") ++ "enablejsapi=1&amp=1")
      with ((base ++ encodeURIComponent (orEmpty videoid))
            ++ String "?" "enablejsapi=1&amp=1")
      by (rewrite !append_assoc; reflexivity).
    rewrite afterFirst_app by (now rewrite includes_app, Hbase, Hid).
    reflexivity.
  - destruct (encodeURIComponent_separators (orEmpty liveChannelid)) as (Hamp & Heq & _).
    replace (base ++ ("live_stream?channel=" ++ encodeURIComponent (orEmpty liveChannelid)
                        ++ "&") ++ "enablejsapi=1&amp=1")
      with ((base ++ "live_stream")
            ++ String "?" (("channel=" ++ encodeURIComponent (orEmpty liveChannelid))
                           ++ String "&" "enablejsapi=1&amp=1"))
      by (rewrite !append_assoc; reflexivity).
    rewrite afterFirst_app by (now rewrite includes_app, Hbase).
    set (channel := "channel=" ++ encodeURIComponent (orEmpty liveChannelid)).
    assert (Hch : includes "&" channel = false)
      by (subst channel; now rewrite includes_app, Hamp).
    assert (Hne : exists c0 r0, channel ++ String "&" "enablejsapi=1&amp=1" = String c0 r0)
      by (subst channel; simpl; eauto).
    destruct Hne as (c0 & r0 & Hne).
    rewrite Hne, <- Hne. rewrite splitOn_app by assumption.
    assert (Hpair : (beforeFirst "=" channel, afterFirst "=" channel)
                    = ("channel", encodeURIComponent (orEmpty liveChannelid))).
    { subst channel.
      change ("channel=" ++ encodeURIComponent (orEmpty liveChannelid))
        with ("channel" ++ String "=" (encodeURIComponent (orEmpty liveChannelid))).
      now rewrite beforeFirst_app, afterFirst_app by reflexivity. }
    cbn [map]. rewrite Hpair. reflexivity.
Qed.

Section RenderProperties.
Context `{Host}.

(** X2: the URL of a render starts with the no-cookie domain exactly
    when the credentials mode is [omit], and with the standard domain
    otherwise. *)
Theorem credentials_choose_the_domain
    (props : YoutubeProps) (ref : option object) (r : VideoWrapper) :
  YoutubeWithRef props ref = Normal r ->
  startsWith (wrapper_src r) "https://www.youtube-nocookie.com/embed/"
  = omitsCredentials props
  /\ startsWith (wrapper_src r) "https://www.youtube.com/embed/"
     = negb (omitsCredentials props).
Proof.
  rewrite YoutubeWithRef_renders. destruct (datasourceExists props); [|discriminate].
  intros [= <-]. cbn [wrapper_src].
  unfold addParamsToUrl, getEmbedUrl, omitsCredentials.
  destruct (serializeQueryString (embedParameters props));
    (destruct (credentials props) as [mode|]; [destruct (mode =? "omit")|]);
    split; reflexivity.
Qed.

(** X3: a parameter of the caller reaches the URL, escaped, unless its
    key is [autoplay] or [loop], or it is [playsinline] while autoplay
    is on. *)
Theorem caller_parameters_reach_the_url
    (props : YoutubeProps) (ref : option object) (r : VideoWrapper) (k v : string) :
  YoutubeWithRef props ref = Normal r ->
  In (k, v) (paramsOf props) ->
  k <> "autoplay" -> k <> "loop" ->
  (k = "playsinline" -> autoplayFlag props = false) ->
  In (encodeURIComponent k, encodeURIComponent v) (queryParameters (wrapper_src r)).
Proof.
  intros Hr Hin Ka Kl Kp. destruct (render_src props ref r Hr) as (_ & _ & ->).
  apply in_or_app. right. apply in_map_iff. exists (k, v). split; [reflexivity|].
  now apply embedParameters_pass.
Qed.

(** X4: every parameter of the URL is one [getEmbedUrl] writes, an
    escaped parameter of the caller, or one of [playsinline=1],
    [iv_load_policy=3] and [loop=1]. *)
Theorem url_parameters_have_a_source
    (props : YoutubeProps) (ref : option object) (r : VideoWrapper) (k v : string) :
  YoutubeWithRef props ref = Normal r ->
  In (k, v) (queryParameters (wrapper_src r)) ->
  In (k, v) (fixedParameters (videoid props) (liveChannelid props))
  \/ (exists k' v', In (k', v') (paramsOf props) /\ k' <> "loop"
                    /\ k = encodeURIComponent k' /\ v = encodeURIComponent v')
  \/ In (k, v) [("playsinline", "1"); ("iv_load_policy", "3"); ("loop", "1")].
Proof.
  intros Hr Hin. destruct (render_src props ref r Hr) as (_ & _ & Hq).
  rewrite Hq in Hin. apply in_app_or in Hin as [Hin|Hin]; [auto|]. right.
  apply in_map_iff in Hin as ([k' v'] & Heq & Hin).
  unfold escapedPair in Heq. cbn [fst snd] in Heq. injection Heq as <- <-.
  apply embedParameters_source in Hin as [[Hin Kl]|Hin].
  - left. eauto 6.
  - right. simpl in Hin. destruct Hin as [[= <- <-]|[[= <- <-]|[[= <- <-]|[]]]];
      simpl; auto.
Qed.

(** X5: the URL of a render always has a [playsinline] parameter, and
    its value is 1 when the caller gave none. *)
Theorem playsinline_is_always_set
    (props : YoutubeProps) (ref : option object) (r : VideoWrapper) :
  YoutubeWithRef props ref = Normal r ->
  In "playsinline" (map fst (queryParameters (wrapper_src r)))
  /\ (has "playsinline" (paramsOf props) = false ->
      forall v, In ("playsinline", v) (queryParameters (wrapper_src r)) -> v = "1").
Proof.
  intros Hr. destruct (render_src props ref r Hr) as (_ & _ & ->). split.
  - pose proof (embedParameters_playsinline props) as Hp.
    apply has_In in Hp as (v & Hin).
    apply in_map_iff. exists ("playsinline", encodeURIComponent v). split; [reflexivity|].
    apply in_or_app. right. apply in_map_iff. now exists ("playsinline", v).
  - intros Hno v Hin.
    apply In_query_source in Hin as (v' & Hin & ->); [|reflexivity|discriminate..].
    apply embedParameters_source in Hin as [[Hin _]|Hin].
    + assert (has "playsinline" (paramsOf props) = true) by (apply has_In; eauto).
      congruence.
    + simpl in Hin. destruct Hin as [[= <-]|[[=]|[[=]|[]]]]. reflexivity.
Qed.

(** X6: the URL has a [loop] parameter exactly when looping is on and
    the parameters have a [playlist] key; its value is then 1; and the
    URL never has an [autoplay] parameter. *)
Theorem loop_parameter_needs_a_playlist
    (props : YoutubeProps) (ref : option object) (r : VideoWrapper) :
  YoutubeWithRef props ref = Normal r ->
  (In "loop" (map fst (queryParameters (wrapper_src r)))
   <-> loopFlag props && has "playlist" (paramsOf props) = true)
  /\ (forall v, In ("loop", v) (queryParameters (wrapper_src r)) -> v = "1")
  /\ ~ In "autoplay" (map fst (queryParameters (wrapper_src r))).
Proof.
  intros Hr. destruct (render_src props ref r Hr) as (_ & _ & ->).
  pose proof (embedParameters_loop props) as Hl.
  repeat split.
  - intros Hin. apply in_map_iff in Hin as ([k v] & Hk & Hin). cbn [fst] in Hk. subst k.
    apply In_query_source in Hin as (v' & Hin & _); [|reflexivity|discriminate..].
    destruct (loopFlag props && has "playlist" (paramsOf props)); [reflexivity|].
    assert (has "loop" (embedParameters props) = true) by (apply has_In; eauto).
    congruence.
  - intros Hc. rewrite Hc in Hl.
    apply in_map_iff. exists ("loop", "1"). split; [reflexivity|].
    now apply In_query_plain.
  - intros v Hin.
    apply In_query_source in Hin as (v' & Hin & ->); [|reflexivity|discriminate..].
    apply embedParameters_source in Hin as [[_ Kl]|Hin]; [congruence|].
    simpl in Hin. destruct Hin as [[=]|[[=]|[[= <-]|[]]]]. reflexivity.
  - intros Hin. apply in_map_iff in Hin as ([k v] & Hk & Hin). cbn [fst] in Hk. subst k.
    apply In_query_source in Hin as (v' & Hin & _); [|reflexivity|discriminate..].
    assert (has "autoplay" (embedParameters props) = true) by (apply has_In; eauto).
    pose proof (embedParameters_no_autoplay props). congruence.
Qed.

(** X7: the URL has an [iv_load_policy] parameter exactly when the
    caller gave one or autoplay is on. *)
Theorem annotations_policy_only_for_autoplay
    (props : YoutubeProps) (ref : option object) (r : VideoWrapper) :
  YoutubeWithRef props ref = Normal r ->
  (In "iv_load_policy" (map fst (queryParameters (wrapper_src r)))
   <-> has "iv_load_policy" (paramsOf props) = true \/ autoplayFlag props = true).
Proof.
  intros Hr. destruct (render_src props ref r Hr) as (_ & _ & ->). split.
  - intros Hin. apply in_map_iff in Hin as ([k v] & Hk & Hin). cbn [fst] in Hk. subst k.
    apply In_query_source in Hin as (v' & Hin & _); [|reflexivity|discriminate..].
    unfold embedParameters in Hin. apply In_withLoop in Hin; [|discriminate].
    destruct (autoplayFlag props); [auto|]. left.
    unfold withAutoplay in Hin. apply In_delete in Hin as [Hin _].
    apply In_withPlaysinline_source in Hin as [Hin|[=]].
    apply has_In. eauto.
  - intros Hor.
    assert (Hh : has "iv_load_policy" (embedParameters props) = true).
    { unfold embedParameters. rewrite has_withLoop by discriminate.
      unfold withAutoplay. destruct (autoplayFlag props).
      - rewrite has_set_other by discriminate.
        destruct (has "iv_load_policy" (delete "autoplay" _)) eqn:E;
          [assumption | apply has_set_same].
      - destruct Hor as [Hc|Hf]; [|discriminate].
        rewrite has_delete_other, has_withPlaysinline by discriminate. assumption. }
    apply has_In in Hh as (v & Hin).
    apply in_map_iff. exists ("iv_load_policy", encodeURIComponent v).
    split; [reflexivity|].
    apply in_or_app. right. apply in_map_iff. now exists ("iv_load_policy", v).
Qed.

(** X8: a render with the parameter object as the previous render left
    it succeeds again and builds the same URL. *)
Theorem rerender_keeps_the_url
    (props : YoutubeProps) (ref ref' : option object) (r : VideoWrapper) :
  YoutubeWithRef props ref = Normal r ->
  exists r', YoutubeWithRef (rerendered props) ref' = Normal r'
             /\ wrapper_src r' = wrapper_src r.
Proof.
  rewrite !YoutubeWithRef_renders.
  change (datasourceExists (rerendered props)) with (datasourceExists props).
  destruct (datasourceExists props); [|discriminate].
  intros [= <-]. eexists. split; [reflexivity|].
  cbn [wrapper_src]. now rewrite embedParameters_rerendered.
Qed.
End RenderProperties.

(** ** The further properties at sample inputs *)

Lemma credentials_choose_the_domain_witness :
  exists r,
    YoutubeWithRef (H := sampleHost) callerParameters None = Normal r
    /\ startsWith (wrapper_src r) "https://www.youtube-nocookie.com/embed/" = true
    /\ startsWith (wrapper_src r) "https://www.youtube.com/embed/" = false.
Proof.
  eexists. split; [reflexivity|].
  exact (@credentials_choose_the_domain sampleHost callerParameters None _ eq_refl).
Defined.

Lemma caller_parameters_reach_the_url_witness :
  exists r,
    YoutubeWithRef (H := sampleHost) callerParameters None = Normal r
    /\ wrapper_src r
       = "https://www.youtube-nocookie.com/embed/dQw4w9WgXcQ?enablejsapi=1&amp=1&start=1%200&iv_load_policy=1&playsinline=1"
    /\ In ("start", "1%200") (queryParameters (wrapper_src r)).
Proof.
  eexists. split; [reflexivity|]. split; [reflexivity|].
  refine (@caller_parameters_reach_the_url sampleHost callerParameters None _
            "start" "1 0" eq_refl (or_introl eq_refl) _ _ _); discriminate.
Defined.

Lemma url_parameters_have_a_source_witness :
  exists r,
    YoutubeWithRef (H := sampleHost) callerParameters None = Normal r
    /\ (In ("playsinline", "1")
          (fixedParameters (videoid callerParameters) (liveChannelid callerParameters))
        \/ (exists k' v', In (k', v') (paramsOf callerParameters) /\ k' <> "loop"
                          /\ "playsinline" = encodeURIComponent k'
                          /\ "1" = encodeURIComponent v')
        \/ In ("playsinline", "1")
             [("playsinline", "1"); ("iv_load_policy", "3"); ("loop", "1")]).
Proof.
  eexists. split; [reflexivity|].
  refine (@url_parameters_have_a_source sampleHost callerParameters None _
            "playsinline" "1" eq_refl _).
  simpl. tauto.
Defined.

Lemma playsinline_is_always_set_witness :
  exists r,
    YoutubeWithRef (H := sampleHost) loopWithPlaylist None = Normal r
    /\ In "playsinline" (map fst (queryParameters (wrapper_src r)))
    /\ (forall v, In ("playsinline", v) (queryParameters (wrapper_src r)) -> v = "1").
Proof.
  eexists. split; [reflexivity|].
  pose proof (@playsinline_is_always_set sampleHost loopWithPlaylist None _ eq_refl)
    as [Hin Hval].
  split; [exact Hin | exact (Hval eq_refl)].
Defined.

Lemma loop_parameter_needs_a_playlist_witness :
  exists r,
    YoutubeWithRef (H := sampleHost) loopWithoutPlaylist None = Normal r
    /\ (In "loop" (map fst (queryParameters (wrapper_src r)))
        <-> loopFlag loopWithoutPlaylist
            && has "playlist" (paramsOf loopWithoutPlaylist) = true)
    /\ (forall v, In ("loop", v) (queryParameters (wrapper_src r)) -> v = "1")
    /\ ~ In "autoplay" (map fst (queryParameters (wrapper_src r))).
Proof.
  eexists. split; [reflexivity|].
  exact (@loop_parameter_needs_a_playlist sampleHost loopWithoutPlaylist None _ eq_refl).
Defined.

Lemma annotations_policy_only_for_autoplay_witness :
  exists r,
    YoutubeWithRef (H := sampleHost) autoplayByParameter None = Normal r
    /\ (In "iv_load_policy" (map fst (queryParameters (wrapper_src r)))
        <-> has "iv_load_policy" (paramsOf autoplayByParameter) = true
            \/ autoplayFlag autoplayByParameter = true).
Proof.
  eexists. split; [reflexivity|].
  exact (@annotations_policy_only_for_autoplay sampleHost autoplayByParameter None _
           eq_refl).
Defined.

Lemma rerender_keeps_the_url_witness :
  exists r r',
    YoutubeWithRef (H := sampleHost) autoplayByParameter None = Normal r
    /\ YoutubeWithRef (H := sampleHost) (rerendered autoplayByParameter)
         (Some (wrapper_playerStateRef r)) = Normal r'
    /\ wrapper_src r' = wrapper_src r.
Proof.
  eexists.
  destruct (@rerender_keeps_the_url sampleHost autoplayByParameter None
              (Some createDefaultInfo) _ eq_refl) as (r' & Hr' & Hsrc).
  exists r'. split; [reflexivity|]. split; [exact Hr' | exact Hsrc].
Defined.

Lemma initial_delivery_only_announces_metadata_witness :
  onMessage (H := sampleHost) true
    (message 3 "initialDelivery" [("currentTime", JNum (Int 9))]) firstRender
  = (Normal tt,
     {| playerStateRef_current := createDefaultInfo;
        trace := [videoEvent 3 (Name VideoEvents.LOADEDMETADATA)] |}).
Proof.
  exact (@initial_delivery_only_announces_metadata sampleHost true
           (message 3 "initialDelivery" [("currentTime", JNum (Int 9))]) firstRender
           eq_refl).
Defined.

Lemma message_without_info_is_ignored_witness :
  onMessage (H := sampleHost) true
    {| data := JObj [("event", JStr "infoDelivery"); ("info", JNull)];
       currentTarget := 3 |} firstRender
  = (Normal tt, firstRender).
Proof.
  refine (@message_without_info_is_ignored sampleHost true
            {| data := JObj [("event", JStr "infoDelivery"); ("info", JNull)];
               currentTarget := 3 |} firstRender eq_refl _ eq_refl).
  discriminate.
Defined.

Lemma later_delivery_wins_per_field_witness :
  playerStateRef_current
    (snd (onMessage (H := sampleHost) false
            (message 3 "infoDelivery" [("currentTime", JNum (Int 7))])
            (snd (onMessage (H := sampleHost) false
                    (message 3 "infoDelivery"
                       [("currentTime", JNum (Int 5)); ("duration", JNum (Int 90))])
                    firstRender))))
  = [("currentTime", JNum (Int 7)); ("duration", JNum (Int 90))].
Proof.
  exact (@later_delivery_wins_per_field sampleHost false
           (message 3 "infoDelivery"
              [("currentTime", JNum (Int 5)); ("duration", JNum (Int 90))])
           (message 3 "infoDelivery" [("currentTime", JNum (Int 7))])
           firstRender (JNum (Int 0)) (JNum NaN) eq_refl eq_refl eq_refl).
Defined.



Lemma known_code_names_its_event_witness :
  exists name actions,
    In ("2", name) PlayerStates
    /\ performs
         (onMessage (H := sampleHost) true
            (message 3 "infoDelivery" [("playerState", JNum (Int 2))]))
         firstRender actions
    /\ dispatchedNames actions = [Name name].
Proof.
  refine (@known_code_names_its_event sampleHost true
            (message 3 "infoDelivery" [("playerState", JNum (Int 2))])
            firstRender 2 eq_refl eq_refl _).
  simpl. tauto.
Defined.

Lemma restart_sends_the_play_method_witness :
  exists rest,
    performs
      (onMessage (H := sampleHost) true
         (message 3 "infoDelivery" [("playerState", JNum (Int 0))]))
      firstRender
      (postMessage 3 (makeMethodMessage (H := sampleHost) "play") "*" :: rest)
    /\ filter isPostMessage rest = [].
Proof.
  exact (@restart_sends_the_play_method sampleHost
           (message 3 "infoDelivery" [("playerState", JNum (Int 0))]) firstRender
           eq_refl eq_refl).
Defined.

Lemma unmapped_methods_send_the_same_message_witness :
  makeMethodMessage (H := sampleHost) "mute"
  = sampleStringify (JObj [("event", JStr "command"); ("func", JUndefined)])
  /\ makeMethodMessage (H := sampleHost) "showControls"
     = makeMethodMessage (H := sampleHost) "mute".
Proof.
  exact (@unmapped_methods_send_the_same_message sampleHost "mute" "showControls"
           eq_refl eq_refl eq_refl eq_refl).
Defined.
